(** * ShellCheck linter adapter for CudaText (linter.py)

    A shallow embedding of [linter.py]: the executable locator, the
    config loader with its comment filter and code validation, the
    command builder, the temp-file suffix override and the menu action
    that creates and opens the config file.

    Python [str] values are sequences of Unicode code points, so a
    string is a [list N].  The library routines the plugin calls
    ([str.strip], [str.isdigit], [json.loads], [json.dump],
    [os.path.splitext], ...) are modelled after CPython 3.11. *)

From Stdlib Require Import String Ascii DecimalString.
From Stdlib Require Import List NArith ZArith Bool Arith Lia.
Import ListNotations.

Set Implicit Arguments.
Set Warnings "-register-all".

(** ** Python strings *)

Definition pystr := list N.

(** An ASCII literal as a Python string. *)
Definition ustr (s : string) : pystr :=
  map N_of_ascii (list_ascii_of_string s).
Arguments ustr s%_string.

(** The same, with every apostrophe standing for a double quote; used to
    write JSON texts. *)
Definition jstr (s : string) : pystr :=
  map (fun c => if N.eqb c 39 then 34%N else c) (ustr s).
Arguments jstr s%_string.

Fixpoint str_eqb (a b : pystr) : bool :=
  match a, b with
  | [], [] => true
  | x :: a', y :: b' => N.eqb x y && str_eqb a' b'
  | _, _ => false
  end.

(** [s.startswith(p)] *)
Fixpoint startswith (p s : pystr) : bool :=
  match p, s with
  | [], _ => true
  | x :: p', y :: s' => N.eqb x y && startswith p' s'
  | _ :: _, [] => false
  end.

Definition in_ranges (tbl : list (N * N)) (c : N) : bool :=
  existsb (fun r => N.leb (fst r) c && N.leb c (snd r)) tbl.

(** Code points for which [str.isspace] holds (Unicode 14). *)
Definition space_ranges : list (N * N) :=
  [(9, 13); (28, 32); (133, 133); (160, 160); (5760, 5760); (8192, 8202);
   (8232, 8233); (8239, 8239); (8287, 8287); (12288, 12288)]%N.

Definition py_isspace (c : N) : bool := in_ranges space_ranges c.

(** Code points for which [str.isdigit] holds (Unicode 14): the decimal
    digits of every script and the characters of numeric type Digit, such
    as superscripts and circled digits. *)
Definition digit_ranges : list (N * N) :=
  [(48, 57); (178, 179); (185, 185); (1632, 1641); (1776, 1785);
   (1984, 1993); (2406, 2415); (2534, 2543); (2662, 2671); (2790, 2799);
   (2918, 2927); (3046, 3055); (3174, 3183); (3302, 3311); (3430, 3439);
   (3558, 3567); (3664, 3673); (3792, 3801); (3872, 3881); (4160, 4169);
   (4240, 4249); (4969, 4977); (6112, 6121); (6160, 6169); (6470, 6479);
   (6608, 6618); (6784, 6793); (6800, 6809); (6992, 7001); (7088, 7097);
   (7232, 7241); (7248, 7257); (8304, 8304); (8308, 8313); (8320, 8329);
   (9312, 9320); (9332, 9340); (9352, 9360); (9450, 9450); (9461, 9469);
   (9471, 9471); (10102, 10110); (10112, 10120); (10122, 10130);
   (42528, 42537); (43216, 43225); (43264, 43273); (43472, 43481);
   (43504, 43513); (43600, 43609); (44016, 44025); (65296, 65305);
   (66720, 66729); (68160, 68163); (68912, 68921); (69216, 69224);
   (69714, 69722); (69734, 69743); (69872, 69881); (69942, 69951);
   (70096, 70105); (70384, 70393); (70736, 70745); (70864, 70873);
   (71248, 71257); (71360, 71369); (71472, 71481); (71904, 71913);
   (72016, 72025); (72784, 72793); (73040, 73049); (73120, 73129);
   (92768, 92777); (92864, 92873); (93008, 93017); (120782, 120831);
   (123200, 123209); (123632, 123641); (125264, 125273); (127232, 127242);
   (130032, 130041)]%N.

Definition py_isdigit_char (c : N) : bool := in_ranges digit_ranges c.

(** [s.isdigit()]: every character is a digit and there is at least one. *)
Definition isdigit (s : pystr) : bool :=
  match s with
  | [] => false
  | _ => forallb py_isdigit_char s
  end.

Fixpoint lstrip (s : pystr) : pystr :=
  match s with
  | c :: s' => if py_isspace c then lstrip s' else s
  | [] => []
  end.

Definition rstrip (s : pystr) : pystr := rev (lstrip (rev s)).

(** [s.strip()] *)
Definition strip (s : pystr) : pystr := rstrip (lstrip s).

(** [s[n:]] *)
Definition slice_from (n : nat) (s : pystr) : pystr := skipn n s.

(** [sep.join(parts)] *)
Fixpoint join (sep : pystr) (parts : list pystr) : pystr :=
  match parts with
  | [] => []
  | [p] => p
  | p :: rest => p ++ sep ++ join sep rest
  end.

(** ** Python values, as [json.loads] produces them

    A float keeps the text it was read from; a dict keeps its items in the
    order they were read (see [dict_get]). *)

Inductive pyval :=
| PyNone
| PyBool (b : bool)
| PyInt (z : Z)
| PyFloat (lexeme : pystr)
| PyStr (s : pystr)
| PyList (items : list pyval)
| PyDict (items : list (pystr * pyval)).

(** [d.get(key, default)] on the dict built from [items]: a later item
    with the same key replaces an earlier one. *)
Fixpoint dict_get (key : pystr) (items : list (pystr * pyval))
  (default : pyval) : pyval :=
  match items with
  | [] => default
  | (k, v) :: rest =>
      if str_eqb k key then dict_get key rest v else dict_get key rest default
  end.

(** ** Exceptions *)

Inductive exn_class :=
| Exception | NameError | UnboundLocalError | AttributeError | TypeError
| ValueError | UnicodeError | UnicodeDecodeError | UnicodeEncodeError
| JSONDecodeError | RuntimeError | RecursionError | OSError
| FileNotFoundError | PermissionError | IsADirectoryError | LookupError.

(** The direct base class, [None] for [Exception] itself. *)
Definition exn_base (c : exn_class) : option exn_class :=
  match c with
  | Exception => None
  | UnboundLocalError => Some NameError
  | UnicodeError | JSONDecodeError => Some ValueError
  | UnicodeDecodeError | UnicodeEncodeError => Some UnicodeError
  | RecursionError => Some RuntimeError
  | FileNotFoundError | PermissionError | IsADirectoryError => Some OSError
  | _ => Some Exception
  end.

Definition exn_eqb (a b : exn_class) : bool :=
  match a, b with
  | Exception, Exception | NameError, NameError
  | UnboundLocalError, UnboundLocalError | AttributeError, AttributeError
  | TypeError, TypeError | ValueError, ValueError
  | UnicodeError, UnicodeError | UnicodeDecodeError, UnicodeDecodeError
  | UnicodeEncodeError, UnicodeEncodeError | JSONDecodeError, JSONDecodeError
  | RuntimeError, RuntimeError | RecursionError, RecursionError
  | OSError, OSError | FileNotFoundError, FileNotFoundError
  | PermissionError, PermissionError | IsADirectoryError, IsADirectoryError
  | LookupError, LookupError => true
  | _, _ => false
  end.

(** [isinstance(e, c)] for an exception of class [e]; the hierarchy is at
    most four levels deep. *)
Fixpoint is_subclass_upto (n : nat) (e c : exn_class) : bool :=
  exn_eqb e c ||
  match n with
  | O => false
  | S n' => match exn_base e with
            | Some b => is_subclass_upto n' b c
            | None => false
            end
  end.

Definition isinstance_exn (e c : exn_class) : bool := is_subclass_upto 4 e c.

(** An [except (c1, c2, ...)] clause. *)
Definition except_matches (classes : list exn_class) (e : exn_class) : bool :=
  existsb (isinstance_exn e) classes.

(** ** [json.loads]

    A transcription of CPython's JSON scanner (the C accelerator
    [_json.c], which [json.loads] uses).  Only the class of a raised
    exception is kept, not its message or position.  Two limits of the
    interpreter take part: the scanner enters one recursion level per
    nested array or object and raises [RecursionError] when none is left,
    and the conversion of an integer literal raises [ValueError] beyond
    [sys.get_int_max_str_digits()] digits (0 switches the limit off). *)

Record json_limits := {
  recursion_budget : nat;
  int_max_str_digits : nat
}.

Inductive pres (A : Type) :=
| POk (a : A) (rest : pystr)
| PErr (e : exn_class)
| PFuel.
Arguments PErr {A} e.
Arguments PFuel {A}.

Definition is_json_ws (c : N) : bool :=
  N.eqb c 32 || N.eqb c 9 || N.eqb c 10 || N.eqb c 13.

Fixpoint skip_ws (s : pystr) : pystr :=
  match s with
  | c :: s' => if is_json_ws c then skip_ws s' else s
  | [] => []
  end.

Definition is_ascii_digit (c : N) : bool := N.leb 48 c && N.leb c 57.

Definition hex_val (c : N) : option N :=
  if N.leb 48 c && N.leb c 57 then Some (c - 48)%N
  else if N.leb 97 c && N.leb c 102 then Some (c - 87)%N
  else if N.leb 65 c && N.leb c 70 then Some (c - 55)%N
  else None.

Definition hex4 (a b c d : N) : option N :=
  match hex_val a, hex_val b, hex_val c, hex_val d with
  | Some x, Some y, Some z, Some w => Some (((x * 16 + y) * 16 + z) * 16 + w)%N
  | _, _, _, _ => None
  end.

(** The characters allowed after a backslash, apart from [u]. *)
Definition unescape (c : N) : option N :=
  if N.eqb c 34 then Some 34%N          (* quote *)
  else if N.eqb c 92 then Some 92%N     (* backslash *)
  else if N.eqb c 47 then Some 47%N     (* slash *)
  else if N.eqb c 98 then Some 8%N      (* b *)
  else if N.eqb c 102 then Some 12%N    (* f *)
  else if N.eqb c 110 then Some 10%N    (* n *)
  else if N.eqb c 114 then Some 13%N    (* r *)
  else if N.eqb c 116 then Some 9%N     (* t *)
  else None.

Definition is_high_surrogate (c : N) : bool := N.leb 55296 c && N.leb c 56319.
Definition is_low_surrogate (c : N) : bool := N.leb 56320 c && N.leb c 57343.

(** [scanstring], strict mode, entered after the opening quote; [acc]
    holds the characters read so far, last first. *)
Fixpoint scanstring (s : pystr) (acc : pystr) : pres pystr :=
  match s with
  | [] => PErr JSONDecodeError
  | c :: r =>
      if N.eqb c 34 then POk (rev acc) r
      else if N.eqb c 92 then
        match r with
        | [] => PErr JSONDecodeError
        | esc :: r1 =>
            if N.eqb esc 117 then
              match r1 with
              | h1 :: h2 :: h3 :: h4 :: r2 =>
                  match hex4 h1 h2 h3 h4 with
                  | None => PErr JSONDecodeError
                  | Some c1 =>
                      match r2 with
                      | b :: u :: g1 :: g2 :: g3 :: g4 :: r3 =>
                          if is_high_surrogate c1 && N.eqb b 92 && N.eqb u 117 then
                            match hex4 g1 g2 g3 g4 with
                            | None => PErr JSONDecodeError
                            | Some c2 =>
                                if is_low_surrogate c2
                                then scanstring r3
                                       ((65536 + (c1 - 55296) * 1024 + (c2 - 56320))%N :: acc)
                                else scanstring r2 (c1 :: acc)
                            end
                          else scanstring r2 (c1 :: acc)
                      | _ => scanstring r2 (c1 :: acc)
                      end
                  end
              | _ => PErr JSONDecodeError
              end
            else
              match unescape esc with
              | Some ch => scanstring r1 (ch :: acc)
              | None => PErr JSONDecodeError
              end
        end
      else if N.ltb c 32 then PErr JSONDecodeError
      else scanstring r (c :: acc)
  end.

(** The longest prefix of ASCII digits, and what follows it. *)
Fixpoint span_digits (s : pystr) : pystr * pystr :=
  match s with
  | c :: r => if is_ascii_digit c
              then let (ds, rest) := span_digits r in (c :: ds, rest)
              else ([], s)
  | [] => ([], [])
  end.

Definition digits_value (ds : pystr) : Z :=
  fold_left (fun acc c => (acc * 10 + (Z.of_N c - 48))%Z) ds 0%Z.

(** The integer part, an optional minus sign and then either 0 or a
    nonzero digit and more digits: sign, digits, rest. *)
Definition match_integer (s : pystr) : option (bool * pystr * pystr) :=
  let (neg, s1) := match s with
                   | c :: r => if N.eqb c 45 then (true, r) else (false, s)
                   | [] => (false, s)
                   end in
  match s1 with
  | c :: r =>
      if N.eqb c 48 then Some (neg, [c], r)
      else if is_ascii_digit c
           then let (ds, rest) := span_digits r in Some (neg, c :: ds, rest)
           else None
  | [] => None
  end.

(** The fraction, a dot and one or more digits, if there is one. *)
Definition match_fraction (s : pystr) : pystr * pystr :=
  match s with
  | dot :: d :: r =>
      if N.eqb dot 46 && is_ascii_digit d
      then let (ds, rest) := span_digits r in (dot :: d :: ds, rest)
      else ([], s)
  | _ => ([], s)
  end.

(** The exponent, e or E, an optional sign and one or more digits, if
    there is one. *)
Definition match_exponent (s : pystr) : pystr * pystr :=
  match s with
  | e :: r =>
      if N.eqb e 101 || N.eqb e 69 then
        let (sign, r1) := match r with
                          | c :: r' => if N.eqb c 45 || N.eqb c 43
                                       then ([c], r') else ([], r)
                          | [] => ([], r)
                          end in
        match span_digits r1 with
        | ([], _) => ([], s)
        | (ds, rest) => (e :: sign ++ ds, rest)
        end
      else ([], s)
  | [] => ([], s)
  end.

(** [PyLong_FromString] refuses a literal of more than
    [int_max_str_digits] digits, once past the threshold of 640. *)
Definition int_too_long (lim : json_limits) (ndigits : nat) : bool :=
  Nat.ltb 640 ndigits && Nat.ltb 0 (int_max_str_digits lim)
  && Nat.ltb (int_max_str_digits lim) ndigits.

Definition match_number (lim : json_limits) (s : pystr) : pres pyval :=
  match match_integer s with
  | None => PErr JSONDecodeError
  | Some (neg, ds, r0) =>
      let (frac, r1) := match_fraction r0 in
      let (expo, r2) := match_exponent r1 in
      match frac, expo with
      | [], [] =>
          if int_too_long lim (length ds) then PErr ValueError
          else POk (PyInt (if neg then - digits_value ds else digits_value ds)%Z) r2
      | _, _ =>
          POk (PyFloat ((if neg then [45%N] else []) ++ ds ++ frac ++ expo)) r2
      end
  end.

Definition pres_map {A B : Type} (f : A -> B) (r : pres A) : pres B :=
  match r with
  | POk a rest => POk (f a) rest
  | PErr e => PErr e
  | PFuel => PFuel
  end.

(** [scan_once], with the loops of [_parse_array] and [_parse_object]
    as [array_items] and [object_items].  [depth] is the number of
    recursion levels still free; [fuel] bounds the number of calls and is
    never exhausted when it starts above twice the length of the text
    (lemma [json_decode_fuel]). *)
Fixpoint scan_once (lim : json_limits) (fuel depth : nat) (s : pystr)
  {struct fuel} : pres pyval :=
  match fuel with
  | O => PFuel
  | S fuel' =>
      match s with
      | [] => PErr JSONDecodeError
      | c :: r =>
          if N.eqb c 34 then pres_map PyStr (scanstring r [])
          else if N.eqb c 123 then
            match depth with
            | O => PErr RecursionError
            | S d =>
                match skip_ws r with
                | c1 :: r1 =>
                    if N.eqb c1 125 then POk (PyDict []) r1
                    else object_items lim fuel' d (c1 :: r1) []
                | [] => PErr JSONDecodeError
                end
            end
          else if N.eqb c 91 then
            match depth with
            | O => PErr RecursionError
            | S d =>
                match skip_ws r with
                | c1 :: r1 =>
                    if N.eqb c1 93 then POk (PyList []) r1
                    else array_items lim fuel' d (c1 :: r1) []
                | [] => PErr JSONDecodeError
                end
            end
          else if startswith (ustr "null") s then POk PyNone (skipn 4 s)
          else if startswith (ustr "true") s then POk (PyBool true) (skipn 4 s)
          else if startswith (ustr "false") s then POk (PyBool false) (skipn 5 s)
          else if startswith (ustr "NaN") s then POk (PyFloat (ustr "NaN")) (skipn 3 s)
          else if startswith (ustr "Infinity") s
               then POk (PyFloat (ustr "Infinity")) (skipn 8 s)
          else if startswith (ustr "-Infinity") s
               then POk (PyFloat (ustr "-Infinity")) (skipn 9 s)
          else match_number lim s
      end
  end

with array_items (lim : json_limits) (fuel depth : nat) (s : pystr)
  (acc : list pyval) {struct fuel} : pres pyval :=
  match fuel with
  | O => PFuel
  | S fuel' =>
      match scan_once lim fuel' depth s with
      | POk v r =>
          match skip_ws r with
          | c :: r1 =>
              if N.eqb c 93 then POk (PyList (rev (v :: acc))) r1
              else if N.eqb c 44
                   then array_items lim fuel' depth (skip_ws r1) (v :: acc)
                   else PErr JSONDecodeError
          | [] => PErr JSONDecodeError
          end
      | PErr e => PErr e
      | PFuel => PFuel
      end
  end

with object_items (lim : json_limits) (fuel depth : nat) (s : pystr)
  (acc : list (pystr * pyval)) {struct fuel} : pres pyval :=
  match fuel with
  | O => PFuel
  | S fuel' =>
      match s with
      | q :: r =>
          if N.eqb q 34 then
            match scanstring r [] with
            | POk key r1 =>
                match skip_ws r1 with
                | colon :: r2 =>
                    if N.eqb colon 58 then
                      match scan_once lim fuel' depth (skip_ws r2) with
                      | POk v r3 =>
                          match skip_ws r3 with
                          | c :: r4 =>
                              if N.eqb c 125
                              then POk (PyDict (rev ((key, v) :: acc))) r4
                              else if N.eqb c 44
                                   then object_items lim fuel' depth (skip_ws r4)
                                          ((key, v) :: acc)
                                   else PErr JSONDecodeError
                          | [] => PErr JSONDecodeError
                          end
                      | PErr e => PErr e
                      | PFuel => PFuel
                      end
                    else PErr JSONDecodeError
                | [] => PErr JSONDecodeError
                end
            | PErr e => PErr e
            | PFuel => PFuel
            end
          else PErr JSONDecodeError
      | [] => PErr JSONDecodeError
      end
  end.

(** An outcome of a Python call: a value, or a raised exception. *)
Inductive Outcome (A : Type) :=
| Ret (a : A)
| Raise (e : exn_class).
Arguments Raise {A} e.

(** [JSONDecoder.decode] after the check of [json.loads] for a byte order
    mark: one value, white space around it, nothing else. *)
Definition json_decode (lim : json_limits) (fuel : nat) (s : pystr) : pres pyval :=
  if startswith [65279%N] s then PErr JSONDecodeError
  else
    match scan_once lim fuel (recursion_budget lim) (skip_ws s) with
    | POk v r => match skip_ws r with
                 | [] => POk v []
                 | _ :: _ => PErr JSONDecodeError
                 end
    | PErr e => PErr e
    | PFuel => PFuel
    end.

Definition json_loads (lim : json_limits) (s : pystr) : Outcome pyval :=
  match json_decode lim (2 * length s + 1) s with
  | POk v _ => Ret v
  | PErr e => Raise e
  | PFuel => Raise RecursionError
  end.

Definition cpython_limits : json_limits :=
  {| recursion_budget := 990; int_max_str_digits := 4300 |}.

(** ** [json.dump(obj, f, indent=2)]

    The text the encoder produces with [indent=2], the default
    [ensure_ascii=True] and the separators that go with an indent: a
    comma at the end of the line between items, a colon and a space after
    a key.  Dict keys are strings here.  A float is written by
    [float.__repr__], which the data of this plugin never reaches; it is
    taken as a function of the text the float was read from. *)

Definition hex_digit (n : N) : N :=
  if N.ltb n 10 then (48 + n)%N else (87 + n)%N.

(** [\uXXXX] with four lower-case hex digits. *)
Definition u_escape (c : N) : pystr :=
  [92; 117; hex_digit (c / 4096); hex_digit ((c / 256) mod 16);
   hex_digit ((c / 16) mod 16); hex_digit (c mod 16)]%N.

Definition escape_char (c : N) : pystr :=
  if N.eqb c 92 then [92; 92]%N
  else if N.eqb c 34 then [92; 34]%N
  else if N.eqb c 8 then [92; 98]%N
  else if N.eqb c 12 then [92; 102]%N
  else if N.eqb c 10 then [92; 110]%N
  else if N.eqb c 13 then [92; 114]%N
  else if N.eqb c 9 then [92; 116]%N
  else if N.leb 32 c && N.leb c 126 then [c]
  else if N.ltb c 65536 then u_escape c
  else u_escape (55296 + (c - 65536) / 1024) ++ u_escape (56320 + (c - 65536) mod 1024).

(** [encode_basestring_ascii] *)
Definition encode_string (s : pystr) : pystr :=
  [34%N] ++ flat_map escape_char s ++ [34%N].

Definition int_repr (z : Z) : pystr :=
  ustr (NilEmpty.string_of_int (Z.to_int z)).

Definition newline_indent (level : nat) : pystr :=
  10%N :: repeat 32%N (2 * level).

Section Encoder.
Variable float_repr : pystr -> pystr.

Fixpoint json_encode (level : nat) (v : pyval) : pystr :=
  match v with
  | PyNone => ustr "null"
  | PyBool true => ustr "true"
  | PyBool false => ustr "false"
  | PyInt z => int_repr z
  | PyFloat lexeme => float_repr lexeme
  | PyStr s => encode_string s
  | PyList [] => ustr "[]"
  | PyList (x :: rest) =>
      ustr "[" ++ newline_indent (S level) ++ json_encode (S level) x
      ++ (fix more (l : list pyval) : pystr :=
            match l with
            | [] => []
            | y :: l' =>
                ustr "," ++ newline_indent (S level)
                ++ json_encode (S level) y ++ more l'
            end) rest
      ++ newline_indent level ++ ustr "]"
  | PyDict [] => ustr "{}"
  | PyDict ((k, x) :: rest) =>
      ustr "{" ++ newline_indent (S level) ++ encode_string k ++ ustr ": "
      ++ json_encode (S level) x
      ++ (fix more (l : list (pystr * pyval)) : pystr :=
            match l with
            | [] => []
            | (k', y) :: l' =>
                ustr "," ++ newline_indent (S level) ++ encode_string k'
                ++ ustr ": " ++ json_encode (S level) y ++ more l'
            end) rest
      ++ newline_indent level ++ ustr "}"
  end.
End Encoder.

(** ** [os.path.splitext]

    [genericpath._splitext(p, sep, altsep, extsep)] with [extsep = '.']:
    [posixpath] calls it with [sep = '/'] and no [altsep], [ntpath] with
    the backslash and [altsep = '/']. *)

Fixpoint rfind_from (c : N) (s : pystr) (i last : Z) : Z :=
  match s with
  | [] => last
  | x :: r => rfind_from c r (i + 1)%Z (if N.eqb x c then i else last)
  end.

(** [s.rfind(c)] for a single character: the last index, or -1. *)
Definition rfind (c : N) (s : pystr) : Z := rfind_from c s 0%Z (-1)%Z.

(** The loop that skips the leading dots of the file name: is there a
    character other than a dot among the [n] characters from index [i]? *)
Fixpoint non_dot_before (p : pystr) (i : Z) (n : nat) : bool :=
  match n with
  | O => false
  | S n' =>
      if negb (N.eqb (nth (Z.to_nat i) p 0%N) 46) then true
      else non_dot_before p (i + 1)%Z n'
  end.

Definition splitext (sep : N) (altsep : option N) (p : pystr) : pystr * pystr :=
  let sepIndex := rfind sep p in
  let sepIndex := match altsep with
                  | Some a => Z.max sepIndex (rfind a p)
                  | None => sepIndex
                  end in
  let dotIndex := rfind 46 p in
  if Z.ltb sepIndex dotIndex
     && non_dot_before p (sepIndex + 1)%Z (Z.to_nat (dotIndex - (sepIndex + 1)))
  then (firstn (Z.to_nat dotIndex) p, skipn (Z.to_nat dotIndex) p)
  else (p, []).

(** ** [posixpath], for concrete hosts *)

(** [p.rstrip('/')] *)
Definition rstrip_slash (p : pystr) : pystr :=
  rev ((fix drop (s : pystr) : pystr :=
          match s with
          | c :: s' => if N.eqb c 47 then drop s' else s
          | [] => []
          end) (rev p)).

Definition posix_dirname (p : pystr) : pystr :=
  let i := Z.to_nat (rfind 47 p + 1) in
  let head := firstn i p in
  if negb (forallb (N.eqb 47) head) then rstrip_slash head else head.

Fixpoint posix_join (a : pystr) (parts : list pystr) : pystr :=
  match parts with
  | [] => a
  | b :: rest =>
      posix_join
        (if startswith [47%N] b then b
         else match a with
              | [] => b
              | _ => if N.eqb (last a 0%N) 47 then a ++ b else a ++ [47%N] ++ b
              end)
        rest
  end.

(** ** Effects

    Every [print] of the plugin is one [log_line]; the constructor names
    the message and carries the values formatted into it. *)

Inductive log_line :=
| LogFoundInPath (path : pystr)
| LogUsingBundled (bundled : pystr)
| LogWarnNotFound (bundled : pystr)
| LogWarnCannotLocate (e : exn_class)
| LogErrReadFallback (e : exn_class)
| LogErrRead (e : exn_class)
| LogErrNotObject
| LogErrNotArray
| LogWarnInvalidCodes (invalid : list pyval)
| LogLoadedCodes (valid : list pystr)
| LogErrInvalidJson (e : exn_class)
| LogCommand (text : pystr)
| LogActive (count : nat) (plural : bool)
| LogIgnoring (text : pystr)
| LogCreatedDefault (path : pystr)
| LogErrCreateFailed (e : exn_class)
| LogOpenedConfig (path : pystr).

Inductive msg_flag := MB_OK | MB_ICONERROR.

(** What a run does to the outside world, in order. *)
Inductive event :=
| Print (line : log_line)
| MakeDirs (dir : pystr)                  (* os.makedirs(dir, exist_ok=True) *)
| CreateFile (path : pystr)               (* open(path, 'w', encoding='utf-8') *)
| WriteFile (path : pystr) (text : pystr) (* json.dump into the open file *)
| MsgBoxCreateFailed (e : exn_class) (flags : list msg_flag)
| FileOpen (path : pystr).                (* cudatext.file_open(path) *)

Definition trace := list event.

(** A computation appends to the trace and ends with a value or with a
    raised exception. *)
Definition M (A : Type) : Type := trace -> Outcome A * trace.

Definition ret {A : Type} (a : A) : M A := fun t => (Ret a, t).

Definition bind {A B : Type} (m : M A) (f : A -> M B) : M B :=
  fun t => match m t with
           | (Ret a, t') => f a t'
           | (Raise e, t') => (Raise e, t')
           end.

Definition raise {A : Type} (e : exn_class) : M A := fun t => (Raise e, t).

Definition emit (ev : event) : M unit := fun t => (Ret tt, t ++ [ev]).

Definition print (line : log_line) : M unit := emit (Print line).

Definition lift {A : Type} (o : Outcome A) : M A := fun t => (o, t).

(** An operation of the host that either fails with an exception or
    succeeds and leaves [ev] in the trace. *)
Definition attempt (failure : option exn_class) (ev : event) : M unit :=
  match failure with
  | Some e => raise e
  | None => emit ev
  end.

Declare Scope py_scope.
Delimit Scope py_scope with py.
Notation "x <- m ;; k" := (bind m (fun x => k))
  (at level 61, m at next level, right associativity) : py_scope.
Notation "m ;; k" := (bind m (fun _ => k))
  (at level 61, right associativity) : py_scope.
Open Scope py_scope.

(** [try: body / except classes1 as e: h1 e / except classes2 as e: ...]:
    the first clause that matches handles the exception; an exception
    raised by a handler is not handled here. *)
Fixpoint handle {A : Type} (clauses : list (list exn_class * (exn_class -> M A)))
  (e : exn_class) : M A :=
  match clauses with
  | [] => raise e
  | (classes, h) :: rest =>
      if except_matches classes e then h e else handle rest e
  end.

Definition try_except {A : Type} (body : M A)
  (clauses : list (list exn_class * (exn_class -> M A))) : M A :=
  fun t => match body t with
           | (Ret a, t') => (Ret a, t')
           | (Raise e, t') => handle clauses e t'
           end.

Definition when (b : bool) (m : M unit) : M unit := if b then m else ret tt.

(** ** The host

    What the plugin asks of the interpreter, the operating system and the
    editor.  A run of the plugin is short, so the answers are fixed during
    a run; what the run changes goes to the trace. *)

Inductive encoding := Utf8 | LocaleDefault.

Record Host := {
  (** [shutil.which(name)] *)
  shutil_which : pystr -> option pystr;
  (** the value of [__file__]; [Raise NameError] when it is not bound *)
  module_file : Outcome pyval;
  (** [os.name] *)
  os_name : pystr;
  (** [os.path.dirname], [os.path.join] and [os.path.isfile] on strings,
      [os.sep] and [os.altsep] *)
  path_dirname : pystr -> pystr;
  path_join : pystr -> list pystr -> pystr;
  path_isfile : pystr -> bool;
  path_sep : N;
  path_altsep : option N;
  (** [app_path(APP_DIR_SETTINGS)] *)
  app_settings_dir : pystr;
  (** the whole text of a file opened for reading with the given
      encoding, line ends translated to [\n], or the exception that
      opening, reading or decoding raises *)
  read_text : encoding -> pystr -> Outcome pystr;
  (** the failures of [os.makedirs(dir, exist_ok=True)], of
      [open(path, 'w', encoding='utf-8')] and of writing a text to the
      open file *)
  makedirs_failure : pystr -> option exn_class;
  create_failure : pystr -> option exn_class;
  write_failure : pystr -> pystr -> option exn_class;
  (** [float.__repr__] on the float read from a text *)
  float_repr : pystr -> pystr;
  limits : json_limits
}.

(** ** class ShellCheck(Linter) *)

Definition CONFIG_FILE : pystr := ustr "shellcheck_config.json".

(** The class attributes [executable] and [cmd]. *)
Definition class_executable : pystr := ustr "shellcheck".
Definition class_cmd : list pystr :=
  [ustr "shellcheck"; ustr "-f"; ustr "gcc"; ustr "-"].

(** The attributes [__init__] may set on the instance.  [executable] and
    [cmd] are [None] while the instance has no attribute of its own and
    the class attribute shows through. *)
Record ShellCheck := {
  shellcheck_path : option pystr;
  ignore_codes : list pystr;
  inst_executable : option pystr;
  inst_cmd : option (list pystr)
}.

(** [self.executable] and [self.cmd] *)
Definition get_executable (self : ShellCheck) : pystr :=
  match inst_executable self with
  | Some v => v
  | None => class_executable
  end.

Definition get_cmd (self : ShellCheck) : list pystr :=
  match inst_cmd self with
  | Some v => v
  | None => class_cmd
  end.

(** Truth value of a string or [None]. *)
Definition truthy (v : option pystr) : bool :=
  match v with
  | Some (_ :: _) => true
  | _ => false
  end.

(** [os.path.dirname(v)]: [TypeError] unless [v] is a string. *)
Definition os_path_dirname (host : Host) (v : pyval) : M pystr :=
  match v with
  | PyStr s => ret (path_dirname host s)
  | _ => raise TypeError
  end.

(** The lines of a text file as iteration yields them, each with its
    line end. *)
Fixpoint lines_from (cur : pystr) (s : pystr) : list pystr :=
  match s with
  | [] => match cur with
          | [] => []
          | _ => [rev cur]
          end
  | c :: r =>
      if N.eqb c 10 then rev (c :: cur) :: lines_from [] r
      else lines_from (c :: cur) r
  end.

Definition file_lines (text : pystr) : list pystr := lines_from [] text.

(** The condition of the comprehension in [_read_config_file]:
    [(s := ln.strip()) and not s.startswith(('//', '#'))] *)
Definition keep_line (ln : pystr) : bool :=
  let s := strip ln in
  match s with
  | [] => false
  | _ => negb (startswith (ustr "//") s || startswith (ustr "#") s)
  end.

(** [''.join(lines).strip()] over the lines kept *)
Definition strip_comments (text : pystr) : pystr :=
  strip (join [] (filter keep_line (file_lines text))).

(** The condition of the comprehension in [_parse_and_validate_codes]:
    [isinstance(c, str) and c.startswith('SC') and c[2:].isdigit()] *)
Definition is_valid_code (c : pyval) : bool :=
  match c with
  | PyStr s => startswith (ustr "SC") s && isdigit (slice_from 2 s)
  | _ => false
  end.

(** The strings of a list of values. *)
Definition strings_of (l : list pyval) : list pystr :=
  flat_map (fun c => match c with
                     | PyStr s => [s]
                     | _ => []
                     end) l.

(** [c in valid], for a list of strings *)
Definition py_in (c : pyval) (valid : list pystr) : bool :=
  match c with
  | PyStr s => existsb (str_eqb s) valid
  | _ => false
  end.

Section Adapter.
Variable host : Host.

(** The body of the [try] in [_find_executable]; [Some bundled] is the
    [return bundled] inside it. *)
Definition bundled_lookup : M (option pystr) :=
  f <- lift (module_file host) ;;
  d1 <- os_path_dirname host f ;;
  let base := path_dirname host (path_dirname host d1) in
  let exe := if str_eqb (os_name host) (ustr "nt")
             then ustr "shellcheck.exe" else ustr "shellcheck" in
  let bundled := path_join host base [ustr "ShellCheck"; exe] in
  if path_isfile host bundled then
    print (LogUsingBundled bundled) ;;
    ret (Some bundled)
  else
    print (LogWarnNotFound bundled) ;;
    ret None.

Definition _find_executable : M (option pystr) :=
  let path := shutil_which host (ustr "shellcheck") in
  if truthy path then
    print (LogFoundInPath (match path with Some p => p | None => [] end)) ;;
    ret path
  else
    try_except bundled_lookup
      [([NameError; AttributeError],
        fun e => print (LogWarnCannotLocate e) ;; ret None)].

(** The two lines inside each [with open(...)]. *)
Definition read_stripped (enc : encoding) (path : pystr) : M (option pystr) :=
  text <- lift (read_text host enc path) ;;
  ret (Some (strip_comments text)).

Definition _read_config_file (path : pystr) : M (option pystr) :=
  try_except (read_stripped Utf8 path)
    [([UnicodeDecodeError],
      fun _ =>
        try_except (read_stripped LocaleDefault path)
          [([Exception],
            fun e => print (LogErrReadFallback e) ;; ret None)]);
     ([Exception],
      fun e => print (LogErrRead e) ;; ret None)].

Definition _parse_and_validate_codes (content : pystr) : M (list pystr) :=
  try_except
    (config <- lift (json_loads (limits host) content) ;;
     match config with
     | PyDict items =>
         match dict_get (ustr "ignore_codes") items (PyList []) with
         | PyList codes =>
             let valid := strings_of (filter is_valid_code codes) in
             when (negb (Nat.eqb (length valid) (length codes)))
               (print (LogWarnInvalidCodes
                         (filter (fun c => negb (py_in c valid)) codes))) ;;
             when (match valid with [] => false | _ => true end)
               (print (LogLoadedCodes valid)) ;;
             ret valid
         | _ => print LogErrNotArray ;; ret []
         end
     | _ => print LogErrNotObject ;; ret []
     end)
    [([JSONDecodeError],
      fun e => print (LogErrInvalidJson e) ;; ret [])].

Definition config_path : pystr :=
  path_join host (app_settings_dir host) [CONFIG_FILE].

Definition _load_config : M (list pystr) :=
  let path := config_path in
  if negb (path_isfile host path) then ret []
  else
    content <- _read_config_file path ;;
    if negb (truthy content) then ret []
    else _parse_and_validate_codes
           (match content with Some c => c | None => [] end).

Definition _build_cmd (shellcheck_path : pystr) (ignore_codes : list pystr)
  : M (list pystr) :=
  let cmd :=
    fold_left (fun cmd code => cmd ++ [ustr "-e"; code]) ignore_codes
      [shellcheck_path; ustr "-f"; ustr "gcc"; ustr "-"] in
  print (LogCommand (join (ustr " ") cmd)) ;;
  ret cmd.

Definition _log_status (ignore_codes : list pystr) : M unit :=
  let count := length ignore_codes in
  print (LogActive count (negb (Nat.eqb count 1))) ;;
  when (match ignore_codes with [] => false | _ => true end)
    (print (LogIgnoring (join (ustr ", ") ignore_codes))).

(** [ShellCheck.__init__], after [super().__init__(view)]. *)
Definition __init__ : M ShellCheck :=
  path <- _find_executable ;;
  if negb (truthy path) then
    ret {| shellcheck_path := path; ignore_codes := [];
           inst_executable := None; inst_cmd := None |}
  else
    let p := match path with Some p => p | None => [] end in
    codes <- _load_config ;;
    cmd <- _build_cmd p codes ;;
    _log_status codes ;;
    ret {| shellcheck_path := path; ignore_codes := codes;
           inst_executable := Some p; inst_cmd := Some cmd |}.

(** [ShellCheck.tmpfile]: the call it makes to [Linter.tmpfile], given
    as [super_tmpfile]. *)
Definition tmpfile {R : Type} (super_tmpfile : list pystr -> pystr -> pystr -> R)
  (filename : pystr) (cmd : list pystr) (code : pystr) (suffix : pystr) : R :=
  let ext := snd (splitext (path_sep host) (path_altsep host) filename) in
  super_tmpfile cmd code (match ext with
                          | [] => ustr ".sh"
                          | _ => ext
                          end).

(** *** class Command *)

Definition DEFAULT_CONFIG : pyval :=
  PyDict [(ustr "ignore_codes",
           PyList [PyStr (ustr "SC2034"); PyStr (ustr "SC2154");
                   PyStr (ustr "SC2086")])].

(** The body of the [try] in [Command.config]. *)
Definition create_default (path : pystr) : M unit :=
  let dir := path_dirname host path in
  attempt (makedirs_failure host dir) (MakeDirs dir) ;;
  attempt (create_failure host path) (CreateFile path) ;;
  let text := json_encode (float_repr host) 0 DEFAULT_CONFIG in
  attempt (write_failure host path text) (WriteFile path text) ;;
  print (LogCreatedDefault path).

(** [Command.config]; the [return] of the handler is the [false] that
    skips the rest. *)
Definition config : M unit :=
  let path := config_path in
  go_on <-
    (if negb (path_isfile host path) then
       try_except (create_default path ;; ret true)
         [([Exception],
           fun e =>
             emit (MsgBoxCreateFailed e [MB_OK; MB_ICONERROR]) ;;
             print (LogErrCreateFailed e) ;;
             ret false)]
     else ret true) ;;
  if (go_on : bool) then
    emit (FileOpen path) ;;
    print (LogOpenedConfig path)
  else ret tt.
End Adapter.

(** ** Concrete hosts *)

(** A POSIX machine described by what is on the search path, the value of
    [__file__], the regular files with their decoded text, and the
    settings directory.  Files decode in both encodings and nothing
    fails on writing. *)
Definition assoc_find {A : Type} (k : pystr) (l : list (pystr * A)) : option A :=
  match find (fun kv => str_eqb (fst kv) k) l with
  | Some kv => Some (snd kv)
  | None => None
  end.

Definition posix_host (on_path : option pystr) (file : Outcome pyval)
  (files : list (pystr * pystr)) (settings : pystr) : Host :=
  {| shutil_which := fun name => on_path;
     module_file := file;
     os_name := ustr "posix";
     path_dirname := posix_dirname;
     path_join := posix_join;
     path_isfile := fun p => match assoc_find p files with
                             | Some _ => true
                             | None => false
                             end;
     path_sep := 47%N;
     path_altsep := None;
     app_settings_dir := settings;
     read_text := fun _ p => match assoc_find p files with
                             | Some text => Ret text
                             | None => Raise FileNotFoundError
                             end;
     makedirs_failure := fun _ => None;
     create_failure := fun _ => None;
     write_failure := fun _ _ => None;
     float_repr := fun lexeme => lexeme;
     limits := cpython_limits |}.

(** ** Notions the statements use *)

(** The pattern of the specification, [^SC[0-9]+$]: the two letters SC,
    then one or more ASCII digits, then the end of the string. *)
Definition spec_code_pattern (s : pystr) : bool :=
  startswith (ustr "SC") s
  && match skipn 2 s with
     | [] => false
     | digits => forallb is_ascii_digit digits
     end.

(** A result that is not a fuel failure and, when it is a value, leaves
    less text than [s]. *)
Definition consumes {A : Type} (p : pres A) (s : pystr) : Prop :=
  match p with
  | POk _ r => length r < length s
  | PErr _ => True
  | PFuel => False
  end.

(** The text the loader gets from the config file: the file decodes as
    UTF-8, or that raises [UnicodeDecodeError] and the file decodes in the
    default encoding. *)
Definition config_file_reads (host : Host) (text : pystr) : Prop :=
  read_text host Utf8 (config_path host) = Ret text \/
  exists e, read_text host Utf8 (config_path host) = Raise e /\
            isinstance_exn e UnicodeDecodeError = true /\
            read_text host LocaleDefault (config_path host) = Ret text.

(** Number of occurrences of a string in a list of strings, and among
    the values of an array. *)
Definition occurrences (c : pystr) (l : list pystr) : nat :=
  length (filter (str_eqb c) l).

Definition occurrences_val (c : pystr) (l : list pyval) : nat :=
  length (filter (fun v => match v with
                           | PyStr s => str_eqb c s
                           | _ => false
                           end) l).

(** The suppression flags of a command: one pair per code. *)
Definition ignore_flags (codes : list pystr) : list pystr :=
  flat_map (fun code => [ustr "-e"; code]) codes.

(** Number of command lines in a trace; [_build_cmd] logs one per call. *)
Definition commands_logged (t : trace) : nat :=
  length (filter (fun ev => match ev with
                            | Print (LogCommand _) => true
                            | _ => false
                            end) t).

Definition file_open_requests (t : trace) : nat :=
  length (filter (fun ev => match ev with
                            | FileOpen _ => true
                            | _ => false
                            end) t).

(** [sub in s] *)
Fixpoint contains (sub s : pystr) : bool :=
  startswith sub s ||
  match s with
  | [] => false
  | _ :: s' => contains sub s'
  end.

(** The rationale that follows each code of [DEFAULT_CONFIG] in the
    source, as a comment. *)
Definition source_rationales : list pystr :=
  [ustr "unused variable"; ustr "referenced but not assigned";
   ustr "quote to prevent word splitting"].

(** A document carries rationale when it has a comment marker or one of
    the rationale texts. *)
Definition has_rationale (doc : pystr) : bool :=
  contains (ustr "#") doc || contains (ustr "//") doc
  || existsb (fun r => contains r doc) source_rationales.

(** The document [json.dump(DEFAULT_CONFIG, f, indent=2)] writes. *)
Definition default_document : pystr :=
  join [10%N]
    [jstr "{";
     jstr "  'ignore_codes': [";
     jstr "    'SC2034',";
     jstr "    'SC2154',";
     jstr "    'SC2086'";
     jstr "  ]";
     jstr "}"].

(** The plugin installed under [/opt/cudatext/py/cuda_linter_shellcheck],
    settings in [/opt/cudatext/settings]. *)
Definition plugin_file : pystr :=
  ustr "/opt/cudatext/py/cuda_linter_shellcheck/linter.py".
Definition settings_dir : pystr := ustr "/opt/cudatext/settings".
Definition settings_file : pystr :=
  ustr "/opt/cudatext/settings/shellcheck_config.json".
Definition bundled_file : pystr := ustr "/opt/cudatext/ShellCheck/shellcheck".

(** No ShellCheck anywhere, no config file. *)
Definition bare_host : Host :=
  posix_host None (Ret (PyStr plugin_file)) [] settings_dir.

(** ShellCheck on the search path and a config file with the text given. *)
Definition installed_host (config_text : pystr) : Host :=
  posix_host (Some (ustr "/usr/bin/shellcheck")) (Ret (PyStr plugin_file))
    [(settings_file, config_text)] settings_dir.

(** Config texts: the scenario of the specification, a file that holds a
    comment and nothing else, and a host whose [__file__] is [None]. *)
Definition commented_config : pystr :=
  ustr "// comment" ++ [10%N]
  ++ jstr "{'ignore_codes': ['SC2034', 'sc2154', 'SC99']}".

Definition comment_only_config : pystr := ustr "# no codes yet" ++ [10%N].

Definition fileless_host : Host :=
  posix_host None (Ret PyNone) [] settings_dir.

(** [__file__] is not bound. *)
Definition nameless_host : Host :=
  posix_host None (Raise NameError) [] settings_dir.

(** What the name [__file__] gives in the module: the import system binds
    it to the path of the file the module is loaded from, a string; where
    the code runs without it the name is not bound and looking it up
    raises [NameError]. *)
Definition module_file_regular (host : Host) : Prop :=
  (exists f, module_file host = Ret (PyStr f)) \/
  module_file host = Raise NameError.

(** ShellCheck only as the bundled copy. *)
Definition bundled_host : Host :=
  posix_host None (Ret (PyStr plugin_file))
    [(bundled_file, [])] settings_dir.

(** No config file, and the settings directory cannot be written to. *)
Definition readonly_host : Host :=
  {| shutil_which := shutil_which bare_host;
     module_file := module_file bare_host;
     os_name := os_name bare_host;
     path_dirname := path_dirname bare_host;
     path_join := path_join bare_host;
     path_isfile := path_isfile bare_host;
     path_sep := path_sep bare_host;
     path_altsep := path_altsep bare_host;
     app_settings_dir := app_settings_dir bare_host;
     read_text := read_text bare_host;
     makedirs_failure := makedirs_failure bare_host;
     create_failure := fun _ => Some PermissionError;
     write_failure := write_failure bare_host;
     float_repr := float_repr bare_host;
     limits := limits bare_host |}.

(** Number of error dialogs in a trace. *)
Definition dialogs (t : trace) : nat :=
  length (filter (fun ev => match ev with
                            | MsgBoxCreateFailed _ _ => true
                            | _ => false
                            end) t).

(** A text made of whole lines: empty, or ending with a line feed. *)
Definition whole_lines (text : pystr) : Prop :=
  text = [] \/ exists body, text = body ++ [10%N].

(** One whole line: no line feed but the one that ends it. *)
Definition one_line (ln : pystr) : Prop :=
  exists body, ln = body ++ [10%N] /\ ~ In 10%N body.

(** ** The diagnostic pattern

    The class attribute [regex], and the part of Python's [re] it needs:
    a match at the start of a string as [re.match] finds it without flags,
    by backtracking, a greedy [+] giving back one character at a time and
    the left branch of [|] tried first. *)

(** Code points [\d] matches in a [str] pattern: the decimal digits of
    every script (Unicode 14). *)
Definition re_digit_ranges : list (N * N) :=
  [(48, 57); (1632, 1641); (1776, 1785); (1984, 1993); (2406, 2415);
   (2534, 2543); (2662, 2671); (2790, 2799); (2918, 2927); (3046, 3055);
   (3174, 3183); (3302, 3311); (3430, 3439); (3558, 3567); (3664, 3673);
   (3792, 3801); (3872, 3881); (4160, 4169); (4240, 4249); (6112, 6121);
   (6160, 6169); (6470, 6479); (6608, 6617); (6784, 6793); (6800, 6809);
   (6992, 7001); (7088, 7097); (7232, 7241); (7248, 7257); (42528, 42537);
   (43216, 43225); (43264, 43273); (43472, 43481); (43504, 43513);
   (43600, 43609); (44016, 44025); (65296, 65305); (66720, 66729);
   (68912, 68921); (69734, 69743); (69872, 69881); (69942, 69951);
   (70096, 70105); (70384, 70393); (70736, 70745); (70864, 70873);
   (71248, 71257); (71360, 71369); (71472, 71481); (71904, 71913);
   (72016, 72025); (72784, 72793); (73040, 73049); (73120, 73129);
   (92768, 92777); (92864, 92873); (93008, 93017); (120782, 120831);
   (123200, 123209); (123632, 123641); (125264, 125273);
   (130032, 130041)]%N.

(** What matches one character: [.] (anything but a line feed), [\d],
    or a literal character. *)
Inductive char_class := AnyChar | DigitChar | Char (c : N).

Definition class_has (p : char_class) (x : N) : bool :=
  match p with
  | AnyChar => negb (N.eqb x 10)
  | DigitChar => in_ranges re_digit_ranges x
  | Char c => N.eqb x c
  end.

Inductive group_name := GLine | GCol | GError | GWarning | GMessage.

Inductive re :=
| Eps
| Bol                              (* ^ *)
| One (p : char_class)
| Many1 (p : char_class)           (* p+ *)
| Seq (a b : re)
| Alt (a b : re)                   (* a|b *)
| Group (g : group_name) (a : re). (* (?P<g>a) *)

(** A literal text. *)
Fixpoint lit (s : pystr) : re :=
  match s with
  | [] => Eps
  | c :: s' => Seq (One (Char c)) (lit s')
  end.

(** The named groups of a match; [None] for a group that took no part. *)
Record captures := {
  g_line : option pystr;
  g_col : option pystr;
  g_error : option pystr;
  g_warning : option pystr;
  g_message : option pystr
}.

Definition no_captures : captures :=
  {| g_line := None; g_col := None; g_error := None; g_warning := None;
     g_message := None |}.

Definition set_group (g : group_name) (text : pystr) (c : captures) : captures :=
  match g with
  | GLine => {| g_line := Some text; g_col := g_col c; g_error := g_error c;
                g_warning := g_warning c; g_message := g_message c |}
  | GCol => {| g_line := g_line c; g_col := Some text; g_error := g_error c;
               g_warning := g_warning c; g_message := g_message c |}
  | GError => {| g_line := g_line c; g_col := g_col c; g_error := Some text;
                 g_warning := g_warning c; g_message := g_message c |}
  | GWarning => {| g_line := g_line c; g_col := g_col c; g_error := g_error c;
                   g_warning := Some text; g_message := g_message c |}
  | GMessage => {| g_line := g_line c; g_col := g_col c; g_error := g_error c;
                   g_warning := g_warning c; g_message := Some text |}
  end.

(** [p+] at position [pos] of the subject, [s] being what is left of
    it: take as many characters as match, then give them back one by one
    until the rest of the pattern, [k], matches. *)
Fixpoint many1 {R : Type} (p : N -> bool) (pos : nat) (s : pystr)
  (k : nat -> pystr -> option R) : option R :=
  match s with
  | x :: s' =>
      if p x then
        match many1 p (S pos) s' k with
        | Some r => Some r
        | None => k (S pos) s'
        end
      else None
  | [] => None
  end.

(** The matcher, with the rest of the pattern as a continuation. *)
Fixpoint run (r : re) (pos : nat) (s : pystr) (c : captures)
  (k : nat -> pystr -> captures -> option captures) : option captures :=
  match r with
  | Eps => k pos s c
  | Bol => if Nat.eqb pos 0 then k pos s c else None
  | One p =>
      match s with
      | x :: s' => if class_has p x then k (S pos) s' c else None
      | [] => None
      end
  | Many1 p => many1 (class_has p) pos s (fun pos' s' => k pos' s' c)
  | Seq a b => run a pos s c (fun pos' s' c' => run b pos' s' c' k)
  | Alt a b =>
      match run a pos s c k with
      | Some m => Some m
      | None => run b pos s c k
      end
  | Group g a =>
      run a pos s c
        (fun pos' s' c' => k pos' s' (set_group g (firstn (pos' - pos) s) c'))
  end.

(** [re.match(r, subject)] *)
Definition re_match (r : re) (subject : pystr) : option captures :=
  run r 0 subject no_captures (fun _ _ c => Some c).

(** The part of [regex] after the leading [^.+]: line, column, severity
    and message. *)
Definition diagnostic_fields : re :=
  Seq (lit (ustr ":"))
    (Seq (Group GLine (Many1 DigitChar))
       (Seq (lit (ustr ":"))
          (Seq (Group GCol (Many1 DigitChar))
             (Seq (lit (ustr ": "))
                (Seq (Alt (Group GError (lit (ustr "error")))
                        (Group GWarning
                           (Alt (lit (ustr "warning")) (lit (ustr "note")))))
                   (Seq (lit (ustr ": "))
                      (Group GMessage (Many1 AnyChar)))))))).

(** [ShellCheck.regex] *)
Definition regex : re := Seq Bol (Seq (Many1 AnyChar) diagnostic_fields).

(** A diagnostic line as ShellCheck prints it with [-f gcc]. *)
Definition gcc_line (file line col severity message : pystr) : pystr :=
  file ++ ustr ":" ++ line ++ ustr ":" ++ col ++ ustr ": " ++ severity
  ++ ustr ": " ++ message.

Definition is_severity (s : pystr) : Prop :=
  s = ustr "error" \/ s = ustr "warning" \/ s = ustr "note".

(** A non-empty run of characters of a class. *)
Definition run_of (p : char_class) (s : pystr) : Prop :=
  s <> [] /\ forallb (class_has p) s = true.

(** The groups of a match of [diagnostic_fields]: [error] holds the
    severity when it is [error], [warning] holds it otherwise. *)
Definition fields_captures (line col severity message : pystr)
  (is_error : bool) (c : captures) : captures :=
  set_group GMessage message
    (set_group (if is_error then GError else GWarning) severity
       (set_group GCol col (set_group GLine line c))).

(** The pieces of [diagnostic_fields]. *)
Definition number_field (g : group_name) : re :=
  Seq (lit (ustr ":")) (Group g (Many1 DigitChar)).

Definition severity_field : re :=
  Alt (Group GError (lit (ustr "error")))
    (Group GWarning (Alt (lit (ustr "warning")) (lit (ustr "note")))).

Definition message_field : re :=
  Seq (lit (ustr ": ")) (Group GMessage (Many1 AnyChar)).

(** * Properties *)

(** *** The scanner never runs out of fuel *)

Lemma consumes_weaken {A : Type} (p : pres A) (s s' : pystr) :
  consumes p s' -> length s' <= length s -> consumes p s.
Proof. destruct p; simpl; intros; auto; lia. Qed.

Lemma skip_ws_length (s : pystr) : length (skip_ws s) <= length s.
Proof.
  induction s as [|c s IH]; simpl; [lia|].
  destruct (is_json_ws c); simpl; lia.
Qed.

Lemma span_digits_length (s : pystr) :
  length (snd (span_digits s)) <= length s.
Proof.
  induction s as [|c s IH]; simpl; [lia|].
  destruct (is_ascii_digit c); simpl; [|lia].
  destruct (span_digits s); simpl in *; lia.
Qed.

Lemma scanstring_consumes_upto (n : nat) :
  forall s acc, length s <= n -> consumes (scanstring s acc) (34%N :: s).
Proof.
  induction n as [|n IH]; intros s acc Hn.
  - destruct s; [exact I | cbn [length] in Hn; lia].
  - destruct s as [|c r]; [exact I|].
    cbn [length] in Hn. cbn [scanstring].
    assert (Hrec : forall s' a, length s' <= length r ->
                     consumes (scanstring s' a) (34%N :: c :: r)).
    { intros s' a Hs'. eapply consumes_weaken; [apply IH; lia|].
      cbn [length]. lia. }
    destruct (N.eqb c 34); [cbn [consumes length]; lia|].
    destruct (N.eqb c 92).
    + destruct r as [|esc r1]; [exact I|].
      destruct (N.eqb esc 117).
      * destruct r1 as [|h1 [|h2 [|h3 [|h4 r2]]]]; try exact I.
        destruct (hex4 h1 h2 h3 h4) as [c1|]; [|exact I].
        assert (Hr2 : forall a, consumes (scanstring r2 a) (34%N :: c :: esc :: h1 :: h2 :: h3 :: h4 :: r2)).
        { intros a. apply Hrec. cbn [length]. lia. }
        destruct r2 as [|b [|u [|g1 [|g2 [|g3 [|g4 r3]]]]]]; try apply Hr2.
        destruct (is_high_surrogate c1 && N.eqb b 92 && N.eqb u 117); [|apply Hr2].
        destruct (hex4 g1 g2 g3 g4) as [c2|]; [|exact I].
        destruct (is_low_surrogate c2); [|apply Hr2].
        apply Hrec. cbn [length]. lia.
      * destruct (unescape esc); [|exact I].
        apply Hrec. cbn [length]. lia.
    + destruct (N.ltb c 32); [exact I|].
      apply Hrec. lia.
Qed.

Lemma scanstring_consumes (s acc : pystr) :
  consumes (scanstring s acc) (34%N :: s).
Proof. apply scanstring_consumes_upto with (n := length s). lia. Qed.

Lemma match_number_consumes (lim : json_limits) (s : pystr) :
  consumes (match_number lim s) s.
Proof.
  unfold match_number.
  destruct (match_integer s) as [[[neg ds] r0]|] eqn:Hi; [|exact I].
  assert (H0 : length r0 < length s).
  { unfold match_integer in Hi.
    destruct s as [|c r]; [discriminate|].
    destruct (N.eqb c 45).
    - destruct r as [|c' r']; [discriminate|].
      destruct (N.eqb c' 48); [inversion Hi; subst; simpl; lia|].
      destruct (is_ascii_digit c'); [|discriminate].
      pose proof (span_digits_length r') as Hs.
      destruct (span_digits r'); inversion Hi; subst; simpl in *; lia.
    - destruct (N.eqb c 48); [inversion Hi; subst; simpl; lia|].
      destruct (is_ascii_digit c); [|discriminate].
      pose proof (span_digits_length r) as Hs.
      destruct (span_digits r); inversion Hi; subst; simpl in *; lia. }
  destruct (match_fraction r0) as [frac r1] eqn:Hf.
  assert (H1 : length r1 <= length r0).
  { unfold match_fraction in Hf.
    destruct r0 as [|dot [|d r]]; try (inversion Hf; subst; simpl; lia).
    destruct (N.eqb dot 46 && is_ascii_digit d); [|inversion Hf; subst; simpl; lia].
    pose proof (span_digits_length r) as Hs.
    destruct (span_digits r); inversion Hf; subst; simpl in *; lia. }
  destruct (match_exponent r1) as [expo r2] eqn:He.
  assert (H2 : length r2 <= length r1).
  { unfold match_exponent in He.
    destruct r1 as [|e r]; [inversion He; subst; simpl; lia|].
    destruct (N.eqb e 101 || N.eqb e 69); [|inversion He; subst; simpl; lia].
    destruct r as [|c r'].
    - simpl in He. inversion He; subst; simpl; lia.
    - destruct (N.eqb c 45 || N.eqb c 43).
      + pose proof (span_digits_length r') as Hs.
        destruct (span_digits r') as [[|d ds'] rest];
          inversion He; subst; simpl in *; lia.
      + pose proof (span_digits_length (c :: r')) as Hs.
        destruct (span_digits (c :: r')) as [[|d ds'] rest];
          inversion He; subst; simpl in *; lia. }
  destruct frac, expo; try (simpl; lia).
  destruct (int_too_long lim (length ds)); simpl; [exact I | lia].
Qed.

Lemma pres_map_consumes {A B : Type} (f : A -> B) (p : pres A) (s : pystr) :
  consumes p s -> consumes (pres_map f p) s.
Proof. destruct p; simpl; auto. Qed.

Lemma skipn_consumes (n : nat) (s : pystr) :
  0 < n -> s <> [] -> length (skipn n s) < length s.
Proof.
  intros Hn Hs. rewrite length_skipn.
  destruct s; [congruence | cbn [length]; lia].
Qed.

Lemma scanner_fuel (lim : json_limits) (fuel : nat) :
  (forall d s, 2 * length s + 1 <= fuel ->
     consumes (scan_once lim fuel d s) s) /\
  (forall d s acc, 2 * length s + 2 <= fuel ->
     consumes (array_items lim fuel d s acc) s) /\
  (forall d s acc, 2 * length s + 2 <= fuel ->
     consumes (object_items lim fuel d s acc) s).
Proof.
  induction fuel as [|fuel (IHs & IHa & IHo)].
  - repeat split; intros; lia.
  - repeat split.
    + intros d s Hf. destruct s as [|c r]; [exact I|].
      cbn [scan_once]. simpl length in Hf.
      destruct (N.eqb c 34).
      { apply pres_map_consumes.
        eapply consumes_weaken; [apply scanstring_consumes | simpl; lia]. }
      pose proof (skip_ws_length r) as Hws.
      destruct (N.eqb c 123).
      { destruct d as [|d]; [exact I|].
        destruct (skip_ws r) as [|c1 r1] eqn:Hr; [exact I|].
        simpl in Hws.
        destruct (N.eqb c1 125); [simpl; lia|].
        eapply consumes_weaken; [apply IHo; simpl; lia | simpl; lia]. }
      destruct (N.eqb c 91).
      { destruct d as [|d]; [exact I|].
        destruct (skip_ws r) as [|c1 r1] eqn:Hr; [exact I|].
        simpl in Hws.
        destruct (N.eqb c1 93); [simpl; lia|].
        eapply consumes_weaken; [apply IHa; simpl; lia | simpl; lia]. }
      repeat match goal with
             | |- consumes (if ?b then _ else _) _ =>
                 destruct b; [apply skipn_consumes; [lia | discriminate]|]
             end.
      apply match_number_consumes.
    + intros d s acc Hf. cbn [array_items].
      pose proof (IHs d s ltac:(lia)) as Hv.
      destruct (scan_once lim fuel d s) as [v r| |]; simpl in Hv; [|exact I|contradiction].
      pose proof (skip_ws_length r) as Hws.
      destruct (skip_ws r) as [|c r1]; [exact I|]. simpl in Hws.
      destruct (N.eqb c 93); [simpl; lia|].
      destruct (N.eqb c 44); [|exact I].
      pose proof (skip_ws_length r1) as Hws1.
      eapply consumes_weaken; [apply IHa; lia | lia].
    + intros d s acc Hf. cbn [object_items].
      destruct s as [|q r]; [exact I|]. simpl length in Hf.
      destruct (N.eqb q 34); [|exact I].
      pose proof (scanstring_consumes r []) as Hk.
      destruct (scanstring r []) as [key r1| |]; simpl in Hk; [|exact I|contradiction].
      pose proof (skip_ws_length r1) as Hws1.
      destruct (skip_ws r1) as [|colon r2]; [exact I|]. simpl in Hws1.
      destruct (N.eqb colon 58); [|exact I].
      pose proof (skip_ws_length r2) as Hws2.
      pose proof (IHs d (skip_ws r2) ltac:(lia)) as Hv.
      destruct (scan_once lim fuel d (skip_ws r2)) as [v r3| |];
        simpl in Hv; [|exact I|contradiction].
      pose proof (skip_ws_length r3) as Hws3.
      destruct (skip_ws r3) as [|c r4]; [exact I|]. simpl in Hws3.
      destruct (N.eqb c 125); [simpl; lia|].
      destruct (N.eqb c 44); [|exact I].
      pose proof (skip_ws_length r4) as Hws4.
      eapply consumes_weaken; [apply IHo; lia | simpl; lia].
Qed.

(** With the fuel [json_loads] gives it, the decoder always ends with
    a value or an exception. *)
Lemma json_decode_fuel (lim : json_limits) (s : pystr) :
  json_decode lim (2 * length s + 1) s <> PFuel.
Proof.
  unfold json_decode.
  destruct (startswith [65279%N] s); [discriminate|].
  pose proof (skip_ws_length s) as Hws.
  assert (Hf : 2 * length (skip_ws s) + 1 <= 2 * length s + 1) by lia.
  pose proof (proj1 (scanner_fuel lim (2 * length s + 1))
                (recursion_budget lim) (skip_ws s) Hf) as Hv.
  destruct (scan_once lim (2 * length s + 1) (recursion_budget lim) (skip_ws s))
    as [v r| |]; simpl in Hv; [|discriminate|contradiction].
  destruct (skip_ws r); discriminate.
Qed.

(** ** Strings and lists *)

Lemma str_eqb_eq (a b : pystr) : str_eqb a b = true <-> a = b.
Proof.
  revert b. induction a as [|x a IH]; intros [|y b]; simpl;
    try (split; [discriminate | discriminate]); [tauto|].
  rewrite andb_true_iff, N.eqb_eq, IH.
  split; [intros [-> ->]; reflexivity | intros H; inversion H; auto].
Qed.

Lemma str_eqb_refl (a : pystr) : str_eqb a a = true.
Proof. apply str_eqb_eq. reflexivity. Qed.

Lemma join_empty_concat (parts : list pystr) : join [] parts = concat parts.
Proof.
  induction parts as [|p rest IH]; [reflexivity|].
  destruct rest as [|q rest'].
  - simpl. rewrite app_nil_r. reflexivity.
  - change (join [] (p :: q :: rest')) with (p ++ [] ++ join [] (q :: rest')).
    rewrite IH. reflexivity.
Qed.

(** ** The command builder *)

Lemma fold_extend (codes init : list pystr) :
  fold_left (fun cmd code => cmd ++ [ustr "-e"; code]) codes init
  = init ++ ignore_flags codes.
Proof.
  revert init. induction codes as [|c codes IH]; intros init; simpl.
  - rewrite app_nil_r. reflexivity.
  - rewrite IH, <- app_assoc. reflexivity.
Qed.

Lemma build_cmd_run (path : pystr) (codes : list pystr) (t : trace) :
  _build_cmd path codes t
  = (Ret ([path; ustr "-f"; ustr "gcc"; ustr "-"] ++ ignore_flags codes),
     t ++ [Print (LogCommand
                    (join (ustr " ")
                       ([path; ustr "-f"; ustr "gcc"; ustr "-"]
                        ++ ignore_flags codes)))]).
Proof.
  unfold _build_cmd, bind, print, emit, ret.
  rewrite fold_extend. reflexivity.
Qed.

(** C3: for every executable path and every code sequence the built
    command is [path, -f, gcc, -] followed by the pair [-e, code] of each
    code in the order of the sequence; the value depends on nothing else,
    and the only effect is the log line that shows the command. *)
Theorem build_cmd_tokens (path : pystr) (codes : list pystr) (t : trace) :
  let cmd := [path; ustr "-f"; ustr "gcc"; ustr "-"]
             ++ flat_map (fun code => [ustr "-e"; code]) codes in
  _build_cmd path codes t
  = (Ret cmd, t ++ [Print (LogCommand (join (ustr " ") cmd))]).
Proof. apply build_cmd_run. Qed.

(** The command of the specification, for two codes. *)
Example build_cmd_two_codes (path a b : pystr) :
  fst (_build_cmd path [a; b] [])
  = Ret [path; ustr "-f"; ustr "gcc"; ustr "-"; ustr "-e"; a; ustr "-e"; b].
Proof. reflexivity. Qed.

(** ** Validation of the codes *)

Lemma strings_of_valid (codes : list pyval) :
  map PyStr (strings_of (filter is_valid_code codes))
  = filter is_valid_code codes.
Proof.
  induction codes as [|c codes IH]; [reflexivity|].
  simpl. destruct (is_valid_code c) eqn:Hc; [|exact IH].
  destruct c; try discriminate. simpl. f_equal. exact IH.
Qed.

Lemma occurrences_valid (c : pystr) (codes : list pyval) :
  is_valid_code (PyStr c) = true ->
  occurrences c (strings_of (filter is_valid_code codes))
  = occurrences_val c codes.
Proof.
  intros Hc. unfold occurrences, occurrences_val.
  induction codes as [|v codes IH]; [reflexivity|].
  cbn [filter].
  destruct (is_valid_code v) eqn:Hv.
  - destruct v as [| | | |s| |]; try discriminate Hv.
    change (strings_of (PyStr s :: filter is_valid_code codes))
      with (s :: strings_of (filter is_valid_code codes)).
    cbn [filter]. destruct (str_eqb c s); cbn [length]; rewrite IH; reflexivity.
  - destruct v as [| | | |s| |]; try exact IH.
    destruct (str_eqb c s) eqn:Heq; [|exact IH].
    apply str_eqb_eq in Heq. subst s. congruence.
Qed.

Lemma occurrences_ignore_flags (c : pystr) (codes : list pystr) :
  str_eqb c (ustr "-e") = false ->
  occurrences c (ignore_flags codes) = occurrences c codes.
Proof.
  intros Hne. unfold occurrences.
  induction codes as [|x codes IH]; [reflexivity|].
  simpl. rewrite Hne. destruct (str_eqb c x); simpl; rewrite IH; reflexivity.
Qed.

Lemma valid_code_not_flag (c : pystr) :
  is_valid_code (PyStr c) = true -> str_eqb c (ustr "-e") = false.
Proof.
  intros H. destruct (str_eqb c (ustr "-e")) eqn:E; [|reflexivity].
  apply str_eqb_eq in E. subst c. vm_compute in H. discriminate H.
Qed.

(** What the loader returns and logs on a text that parses to an object
    whose [ignore_codes] is an array. *)
Lemma parse_array_result (host : Host) (content : pystr)
  (items : list (pystr * pyval)) (codes : list pyval) (t : trace) :
  json_loads (limits host) content = Ret (PyDict items) ->
  dict_get (ustr "ignore_codes") items (PyList []) = PyList codes ->
  fst (_parse_and_validate_codes host content t)
  = Ret (strings_of (filter is_valid_code codes)).
Proof.
  intros Hj Hd.
  unfold _parse_and_validate_codes, try_except, bind, lift.
  rewrite Hj, Hd.
  unfold when, print, emit, ret.
  destruct (negb _); destruct (strings_of _); reflexivity.
Qed.

(** C10: the codes are not deduplicated.  For every [ignore_codes] array
    the loaded sequence is the array without its invalid entries, in the
    order of the array; a valid code occurs in it as many times as in the
    array, and as many times among the [-e] pairs of the built command. *)
Theorem duplicates_are_kept (host : Host) (content path : pystr)
  (items : list (pystr * pyval)) (codes : list pyval) (c : pystr)
  (t t' : trace) :
  json_loads (limits host) content = Ret (PyDict items) ->
  dict_get (ustr "ignore_codes") items (PyList []) = PyList codes ->
  is_valid_code (PyStr c) = true ->
  exists loaded,
    fst (_parse_and_validate_codes host content t) = Ret loaded /\
    map PyStr loaded = filter is_valid_code codes /\
    occurrences c loaded = occurrences_val c codes /\
    exists cmd,
      fst (_build_cmd path loaded t') = Ret cmd /\
      skipn 4 cmd = flat_map (fun code => [ustr "-e"; code]) loaded /\
      occurrences c (skipn 4 cmd) = occurrences_val c codes.
Proof.
  intros Hj Hd Hc.
  exists (strings_of (filter is_valid_code codes)).
  split; [eapply parse_array_result; eassumption|].
  split; [apply strings_of_valid|].
  split; [apply occurrences_valid; exact Hc|].
  eexists. split; [rewrite build_cmd_run; reflexivity|].
  split; [reflexivity|].
  change (skipn 4 _) with (ignore_flags (strings_of (filter is_valid_code codes))).
  rewrite occurrences_ignore_flags by (apply valid_code_not_flag; exact Hc).
  apply occurrences_valid. exact Hc.
Qed.

Lemma duplicates_are_kept_witness :
  let content := jstr "{'ignore_codes': ['SC2034', 'SC1090', 'SC2034']}" in
  exists loaded,
    fst (_parse_and_validate_codes bare_host content []) = Ret loaded /\
    map PyStr loaded
    = filter is_valid_code
        [PyStr (ustr "SC2034"); PyStr (ustr "SC1090"); PyStr (ustr "SC2034")] /\
    occurrences (ustr "SC2034") loaded = 2 /\
    exists cmd,
      fst (_build_cmd (ustr "/usr/bin/shellcheck") loaded []) = Ret cmd /\
      skipn 4 cmd = flat_map (fun code => [ustr "-e"; code]) loaded /\
      occurrences (ustr "SC2034") (skipn 4 cmd) = 2.
Proof.
  exact (@duplicates_are_kept bare_host
           (jstr "{'ignore_codes': ['SC2034', 'SC1090', 'SC2034']}")
           (ustr "/usr/bin/shellcheck")
           [(ustr "ignore_codes",
             PyList [PyStr (ustr "SC2034"); PyStr (ustr "SC1090");
                     PyStr (ustr "SC2034")])]
           [PyStr (ustr "SC2034"); PyStr (ustr "SC1090"); PyStr (ustr "SC2034")]
           (ustr "SC2034") [] [] eq_refl eq_refl eq_refl).
Defined.

(** On ASCII text the check of the code and the pattern of the
    specification agree; they differ on digits outside ASCII only. *)
Lemma ascii_digit_is_digit (c : N) :
  is_ascii_digit c = true -> py_isdigit_char c = true.
Proof.
  unfold is_ascii_digit, py_isdigit_char, in_ranges. intros H.
  simpl. rewrite H. reflexivity.
Qed.

Lemma digit_below_128 (c : N) :
  py_isdigit_char c = true -> (c < 128)%N -> is_ascii_digit c = true.
Proof.
  unfold py_isdigit_char, in_ranges, digit_ranges. intros H Hc.
  cbn [existsb fst snd] in H.
  repeat (apply orb_prop in H; destruct H as [H|H];
          [ try exact H;
            apply andb_prop in H; destruct H as [H _];
            apply N.leb_le in H; lia | ]).
  discriminate H.
Qed.

Lemma pattern_passes_check (s : pystr) :
  spec_code_pattern s = true -> is_valid_code (PyStr s) = true.
Proof.
  unfold spec_code_pattern, is_valid_code, slice_from, isdigit.
  intros H. apply andb_prop in H. destruct H as [Hsc Hd].
  rewrite Hsc. cbn [andb].
  destruct (skipn 2 s) as [|d rest]; [discriminate|].
  rewrite forallb_forall in *. intros x Hx.
  apply ascii_digit_is_digit, Hd, Hx.
Qed.

Lemma check_on_ascii (s : pystr) :
  Forall (fun c => (c < 128)%N) s ->
  is_valid_code (PyStr s) = spec_code_pattern s.
Proof.
  intros Hs.
  destruct (spec_code_pattern s) eqn:Hp; [apply pattern_passes_check, Hp|].
  destruct (is_valid_code (PyStr s)) eqn:Hv; [|reflexivity].
  exfalso.
  unfold spec_code_pattern in Hp.
  unfold is_valid_code, slice_from, isdigit in Hv.
  apply andb_prop in Hv. destruct Hv as [Hsc Hd].
  rewrite Hsc in Hp. cbn [andb] in Hp.
  assert (Hsub : forall x, In x (skipn 2 s) -> (x < 128)%N).
  { intros x Hx. rewrite Forall_forall in Hs. apply Hs.
    rewrite <- (firstn_skipn 2 s). apply in_or_app. right. exact Hx. }
  destruct (skipn 2 s) as [|d rest]; [discriminate|].
  assert (Hall : forallb is_ascii_digit (d :: rest) = true).
  { rewrite forallb_forall in *. intros x Hx.
    apply digit_below_128; [apply Hd, Hx | apply Hsub, Hx]. }
  congruence.
Qed.

(** C1: the code keeps an entry whose digits are not ASCII.  On the
    array [SC2034, SC followed by a superscript two] the loader returns
    both entries, although the second does not match the pattern of the
    specification. *)
Theorem validation_keeps_superscript_digit :
  let code := ustr "SC" ++ [178%N] in
  let content := jstr "{'ignore_codes': ['SC2034', 'SC" ++ [178%N] ++ jstr "']}" in
  _parse_and_validate_codes bare_host content []
  = (Ret [ustr "SC2034"; code],
     [Print (LogLoadedCodes [ustr "SC2034"; code])])
  /\ spec_code_pattern code = false.
Proof. split; vm_compute; reflexivity. Qed.

(** ** The comment filter *)

Lemma keep_line_false (ln : pystr) :
  keep_line ln = false <->
  strip ln = [] \/ startswith (ustr "//") (strip ln) = true
  \/ startswith (ustr "#") (strip ln) = true.
Proof.
  unfold keep_line. destruct (strip ln) as [|c s] eqn:Hs.
  - split; auto.
  - rewrite negb_false_iff, orb_true_iff.
    split; [auto | intros [H|H]; [discriminate | exact H]].
Qed.

Lemma lines_from_concat (s cur : pystr) :
  concat (lines_from cur s) = rev cur ++ s.
Proof.
  revert cur. induction s as [|c r IH]; intros cur; simpl.
  - destruct cur; simpl; rewrite ?app_nil_r; reflexivity.
  - destruct (N.eqb c 10) eqn:Hc; simpl.
    + rewrite IH. simpl. rewrite <- app_assoc. reflexivity.
    + rewrite IH. simpl. rewrite <- app_assoc. reflexivity.
Qed.

(** The lines of a text are the text cut after each line feed. *)
Lemma file_lines_concat (text : pystr) : concat (file_lines text) = text.
Proof. apply lines_from_concat. Qed.

Lemma read_config_utf8 (host : Host) (path text : pystr) (t : trace) :
  read_text host Utf8 path = Ret text ->
  _read_config_file host path t = (Ret (Some (strip_comments text)), t).
Proof.
  intros H. unfold _read_config_file, try_except, read_stripped, bind, lift, ret.
  rewrite H. reflexivity.
Qed.

Lemma read_config_fallback (host : Host) (path text : pystr) (e : exn_class)
  (t : trace) :
  read_text host Utf8 path = Raise e ->
  isinstance_exn e UnicodeDecodeError = true ->
  read_text host LocaleDefault path = Ret text ->
  _read_config_file host path t = (Ret (Some (strip_comments text)), t).
Proof.
  intros H He Hd.
  unfold _read_config_file, try_except, read_stripped, bind, lift, ret.
  rewrite H. cbn [handle]. unfold except_matches. cbn [existsb].
  rewrite He. cbn [orb]. rewrite Hd. reflexivity.
Qed.

Lemma load_config_content (host : Host) (content : pystr) (t : trace) :
  path_isfile host (config_path host) = true ->
  _read_config_file host (config_path host) t = (Ret (Some content), t) ->
  _load_config host t
  = match content with
    | [] => (Ret [], t)
    | _ => _parse_and_validate_codes host content t
    end.
Proof.
  intros Hf Hr. unfold _load_config. rewrite Hf. cbn [negb].
  unfold bind. rewrite Hr. destruct content; reflexivity.
Qed.

Lemma read_config_text (host : Host) (text : pystr) (t : trace) :
  config_file_reads host text ->
  _read_config_file host (config_path host) t
  = (Ret (Some (strip_comments text)), t).
Proof.
  intros [Hr | (e & Hr & He & Hd)].
  - apply read_config_utf8. exact Hr.
  - eapply read_config_fallback; eassumption.
Qed.

(** C6: when the config file is read, in UTF-8 or after a decoding error
    in the default encoding, a line is dropped exactly when its trimmed
    content is empty or begins with // or with #; the lines kept are
    concatenated with nothing between them, the result is trimmed, and
    that text is what the JSON parser receives. *)
Theorem comments_are_stripped (host : Host) (text : pystr) (t : trace) :
  path_isfile host (config_path host) = true ->
  config_file_reads host text ->
  let kept := filter keep_line (file_lines text) in
  let content := strip (concat kept) in
  (forall ln, In ln (file_lines text) ->
     (In ln kept <->
      strip ln <> [] /\ startswith (ustr "//") (strip ln) = false
      /\ startswith (ustr "#") (strip ln) = false)) /\
  _read_config_file host (config_path host) t = (Ret (Some content), t) /\
  _load_config host t
  = match content with
    | [] => (Ret [], t)
    | _ => _parse_and_validate_codes host content t
    end.
Proof.
  intros Hf Hr kept content.
  assert (Hread : _read_config_file host (config_path host) t
                  = (Ret (Some content), t)).
  { unfold content, kept. rewrite <- join_empty_concat.
    apply read_config_text. exact Hr. }
  split; [|split; [exact Hread | apply load_config_content; assumption]].
  intros ln Hin. unfold kept. rewrite filter_In.
  split.
  - intros [_ Hk].
    destruct (strip ln) as [|c s] eqn:Hs;
      [unfold keep_line in Hk; rewrite Hs in Hk; discriminate|].
    unfold keep_line in Hk. rewrite Hs in Hk.
    apply negb_true_iff, orb_false_iff in Hk.
    split; [discriminate | exact Hk].
  - intros (Hne & H1 & H2). split; [exact Hin|].
    unfold keep_line. destruct (strip ln); [congruence|].
    rewrite H1, H2. reflexivity.
Qed.

Lemma comments_are_stripped_witness :
  let host := installed_host commented_config in
  let kept := filter keep_line (file_lines commented_config) in
  let content := strip (concat kept) in
  (forall ln, In ln (file_lines commented_config) ->
     (In ln kept <->
      strip ln <> [] /\ startswith (ustr "//") (strip ln) = false
      /\ startswith (ustr "#") (strip ln) = false)) /\
  _read_config_file host (config_path host) [] = (Ret (Some content), []) /\
  _load_config host []
  = match content with
    | [] => (Ret [], [])
    | _ => _parse_and_validate_codes host content []
    end.
Proof.
  exact (@comments_are_stripped (installed_host commented_config)
           commented_config [] eq_refl (or_introl eq_refl)).
Defined.

(** The scenario of the specification: a comment line, then an object
    with a lower-case entry among the codes. *)
Example load_commented_config :
  _load_config (installed_host commented_config) []
  = (Ret [ustr "SC2034"; ustr "SC99"],
     [Print (LogWarnInvalidCodes [PyStr (ustr "sc2154")]);
      Print (LogLoadedCodes [ustr "SC2034"; ustr "SC99"])]).
Proof. vm_compute. reflexivity. Qed.

(** ** The loader on malformed configs *)

Lemma parse_decode_error (host : Host) (content : pystr) (e : exn_class)
  (t : trace) :
  json_loads (limits host) content = Raise e ->
  isinstance_exn e JSONDecodeError = true ->
  _parse_and_validate_codes host content t
  = (Ret [], t ++ [Print (LogErrInvalidJson e)]).
Proof.
  intros Hj He. unfold _parse_and_validate_codes, try_except, bind, lift.
  rewrite Hj. cbn [handle]. unfold except_matches. cbn [existsb].
  rewrite He. reflexivity.
Qed.

Lemma parse_not_object (host : Host) (content : pystr) (v : pyval) (t : trace) :
  json_loads (limits host) content = Ret v ->
  (forall items, v <> PyDict items) ->
  _parse_and_validate_codes host content t
  = (Ret [], t ++ [Print LogErrNotObject]).
Proof.
  intros Hj Hv. unfold _parse_and_validate_codes, try_except, bind, lift.
  rewrite Hj. destruct v; try reflexivity.
  exfalso. eapply Hv. reflexivity.
Qed.

Lemma parse_not_array (host : Host) (content : pystr)
  (items : list (pystr * pyval)) (t : trace) :
  json_loads (limits host) content = Ret (PyDict items) ->
  (forall codes,
     dict_get (ustr "ignore_codes") items (PyList []) <> PyList codes) ->
  _parse_and_validate_codes host content t
  = (Ret [], t ++ [Print LogErrNotArray]).
Proof.
  intros Hj Hv. unfold _parse_and_validate_codes, try_except, bind, lift.
  rewrite Hj.
  destruct (dict_get (ustr "ignore_codes") items (PyList [])); try reflexivity.
  exfalso. eapply Hv. reflexivity.
Qed.

Lemma json_loads_empty (lim : json_limits) :
  json_loads lim [] = Raise JSONDecodeError.
Proof. reflexivity. Qed.

(** C4, the claim as stated fails: a config file that holds only a
    comment strips to the empty text, which is not valid JSON, and the
    loader returns the empty sequence without logging anything. *)
Lemma comment_only_config_is_silent :
  let host := installed_host comment_only_config in
  strip_comments comment_only_config = [] /\
  json_loads (limits host) (strip_comments comment_only_config)
  = Raise JSONDecodeError /\
  _load_config host [] = (Ret [], []).
Proof. repeat split. Qed.

(** C4, amended: when the config file is read, the loader returns the
    empty sequence without raising if the stripped text is empty (and then
    logs nothing), if [json.loads] rejects it with a [JSONDecodeError], if
    [json.loads] returns a value that is not an object, or if it returns
    an object whose value under [ignore_codes] is not an array; in the
    last three cases it logs the error.  Texts on which [json.loads]
    raises an exception of another class are not covered. *)
Theorem malformed_config_gives_empty (host : Host) (text : pystr) (t : trace) :
  path_isfile host (config_path host) = true ->
  config_file_reads host text ->
  let content := strip_comments text in
  (content = [] -> _load_config host t = (Ret [], t)) /\
  (forall e,
     content <> [] ->
     json_loads (limits host) content = Raise e ->
     isinstance_exn e JSONDecodeError = true ->
     _load_config host t = (Ret [], t ++ [Print (LogErrInvalidJson e)])) /\
  (forall v,
     json_loads (limits host) content = Ret v ->
     (forall items, v <> PyDict items) ->
     _load_config host t = (Ret [], t ++ [Print LogErrNotObject])) /\
  (forall items,
     json_loads (limits host) content = Ret (PyDict items) ->
     (forall codes,
        dict_get (ustr "ignore_codes") items (PyList []) <> PyList codes) ->
     _load_config host t = (Ret [], t ++ [Print LogErrNotArray])).
Proof.
  intros Hf Hr content.
  pose proof (@load_config_content host content t Hf
                (@read_config_text host text t Hr)) as Hl.
  repeat split.
  - intros Hc. rewrite Hl, Hc. reflexivity.
  - intros e Hne Hj He. rewrite Hl.
    destruct content; [congruence|]. apply parse_decode_error; assumption.
  - intros v Hj Hv. rewrite Hl.
    destruct content; [rewrite json_loads_empty in Hj; discriminate|].
    eapply parse_not_object; eassumption.
  - intros items Hj Hv. rewrite Hl.
    destruct content; [rewrite json_loads_empty in Hj; discriminate|].
    eapply parse_not_array; eassumption.
Qed.

Lemma malformed_config_gives_empty_witness :
  _load_config (installed_host comment_only_config) [] = (Ret [], []) /\
  _load_config (installed_host (jstr "{'ignore_codes': ['SC2034',}")) []
  = (Ret [], [Print (LogErrInvalidJson JSONDecodeError)]) /\
  _load_config (installed_host (jstr "['SC2034']")) []
  = (Ret [], [Print LogErrNotObject]) /\
  _load_config (installed_host (jstr "{'ignore_codes': 'SC2034'}")) []
  = (Ret [], [Print LogErrNotArray]).
Proof.
  split; [|split; [|split]].
  - exact (proj1 (@malformed_config_gives_empty
                    (installed_host comment_only_config)
                    comment_only_config [] eq_refl (or_introl eq_refl)) eq_refl).
  - refine (proj1 (proj2 (@malformed_config_gives_empty
                    (installed_host (jstr "{'ignore_codes': ['SC2034',}"))
                    (jstr "{'ignore_codes': ['SC2034',}") [] eq_refl
                    (or_introl eq_refl)))
              JSONDecodeError _ eq_refl eq_refl).
    vm_compute. discriminate.
  - refine (proj1 (proj2 (proj2 (@malformed_config_gives_empty
                    (installed_host (jstr "['SC2034']"))
                    (jstr "['SC2034']") [] eq_refl (or_introl eq_refl))))
              (PyList [PyStr (ustr "SC2034")]) eq_refl _).
    intros items. discriminate.
  - refine (proj2 (proj2 (proj2 (@malformed_config_gives_empty
                    (installed_host (jstr "{'ignore_codes': 'SC2034'}"))
                    (jstr "{'ignore_codes': 'SC2034'}") [] eq_refl
                    (or_introl eq_refl))))
              [(ustr "ignore_codes", PyStr (ustr "SC2034"))] eq_refl _).
    intros codes. vm_compute. discriminate.
Defined.

(** The [except] clause of the parser names [JSONDecodeError] only, and
    [json.loads] raises other exceptions as well: arrays nested deeper
    than the interpreter allows end the loader with [RecursionError], and
    an integer of more digits than the interpreter converts, a JSON
    number, ends it with [ValueError]. *)
Example deeply_nested_config_raises :
  _load_config (installed_host (repeat 91%N 991)) []
  = (Raise RecursionError, []).
Proof. vm_compute. reflexivity. Qed.

Example long_integer_config_raises :
  _load_config (installed_host (repeat 49%N 4301)) []
  = (Raise ValueError, []).
Proof. vm_compute. reflexivity. Qed.

(** ** The executable locator *)

Lemma all_are_exceptions (e : exn_class) : isinstance_exn e Exception = true.
Proof. destruct e; reflexivity. Qed.

(** The handler of the locator names [NameError] and [AttributeError]:
    an exception of one of these classes (or of a subclass) raised while
    the bundled path is computed is logged as a warning and the result is
    [None]; an exception of another class leaves the locator. *)
Lemma locator_handler (host : Host) (t t' : trace) (e : exn_class) :
  truthy (shutil_which host (ustr "shellcheck")) = false ->
  bundled_lookup host t = (Raise e, t') ->
  if except_matches [NameError; AttributeError] e
  then _find_executable host t
       = (Ret None, t' ++ [Print (LogWarnCannotLocate e)])
  else _find_executable host t = (Raise e, t').
Proof.
  intros Hw Hb.
  unfold _find_executable. rewrite Hw.
  unfold try_except. rewrite Hb. cbn [handle].
  destruct (except_matches [NameError; AttributeError] e); reflexivity.
Qed.

(** With [__file__] a string the computation of the bundled path returns;
    with [__file__] not bound it raises [NameError] before it logs. *)
Lemma bundled_lookup_regular (host : Host) (t : trace) :
  module_file_regular host ->
  (exists r t', bundled_lookup host t = (Ret r, t')) \/
  bundled_lookup host t = (Raise NameError, t).
Proof.
  intros [[f Hf] | Hn]; unfold bundled_lookup, bind, lift.
  - left. rewrite Hf. cbn [os_path_dirname ret].
    destruct (path_isfile host _); eexists; eexists; reflexivity.
  - right. rewrite Hn. reflexivity.
Qed.

(** C2: in a module whose [__file__] is the string the import system
    binds, or is not bound at all, the locator returns a path or the
    absent value and no exception leaves it; and every exception raised
    while the bundled path is computed is caught in the locator, logged as
    a warning and treated as not found. *)
Theorem locator_never_propagates (host : Host) (t : trace) :
  module_file_regular host ->
  (exists r t', _find_executable host t = (Ret r, t')) /\
  (forall e t',
     truthy (shutil_which host (ustr "shellcheck")) = false ->
     bundled_lookup host t = (Raise e, t') ->
     _find_executable host t
     = (Ret None, t' ++ [Print (LogWarnCannotLocate e)])).
Proof.
  intros Hreg.
  destruct (bundled_lookup_regular t Hreg) as [(r0 & t0 & Hb) | Hb]; split.
  - unfold _find_executable.
    destruct (truthy (shutil_which host (ustr "shellcheck"))).
    + eexists. eexists. reflexivity.
    + unfold try_except. rewrite Hb. eexists. eexists. reflexivity.
  - intros e t' _ He. rewrite Hb in He. discriminate He.
  - unfold _find_executable.
    destruct (truthy (shutil_which host (ustr "shellcheck"))).
    + eexists. eexists. reflexivity.
    + unfold try_except. rewrite Hb. cbn [handle].
      eexists. eexists. reflexivity.
  - intros e t' Hw He. rewrite Hb in He. inversion He; subst e t'.
    exact (locator_handler host t Hw Hb).
Qed.

Lemma locator_never_propagates_witness :
  (exists r t', _find_executable bare_host [] = (Ret r, t')) /\
  (exists r t', _find_executable nameless_host [] = (Ret r, t')) /\
  _find_executable nameless_host []
  = (Ret None, [] ++ [Print (LogWarnCannotLocate NameError)]).
Proof.
  split; [|split].
  - exact (proj1 (@locator_never_propagates bare_host []
                    (or_introl (ex_intro _ plugin_file eq_refl)))).
  - exact (proj1 (@locator_never_propagates nameless_host []
                    (or_intror eq_refl))).
  - exact (proj2 (@locator_never_propagates nameless_host []
                    (or_intror eq_refl)) NameError [] eq_refl eq_refl).
Defined.

Example locator_prefers_search_path :
  _find_executable
    (posix_host (Some (ustr "/usr/bin/shellcheck")) (Ret (PyStr plugin_file))
       [(bundled_file, [])] settings_dir) []
  = (Ret (Some (ustr "/usr/bin/shellcheck")),
     [Print (LogFoundInPath (ustr "/usr/bin/shellcheck"))]).
Proof. reflexivity. Qed.

Example locator_finds_bundled :
  _find_executable bundled_host []
  = (Ret (Some bundled_file), [Print (LogUsingBundled bundled_file)]).
Proof. reflexivity. Qed.

Example locator_reports_absence :
  _find_executable bare_host []
  = (Ret None, [Print (LogWarnNotFound bundled_file)]).
Proof. reflexivity. Qed.

(** ** Construction *)

Lemma commands_logged_app (t u : trace) :
  commands_logged (t ++ u) = commands_logged t + commands_logged u.
Proof. unfold commands_logged. rewrite filter_app, length_app. reflexivity. Qed.

Lemma commands_logged_other (t : trace) (ev : event) :
  commands_logged [ev] = 0 -> commands_logged (t ++ [ev]) = commands_logged t.
Proof. intros H. rewrite commands_logged_app, H. lia. Qed.

(** Each call of the command builder adds one command line to the log. *)
Lemma build_cmd_logs_once (path : pystr) (codes : list pystr) (t : trace) :
  commands_logged (snd (_build_cmd path codes t)) = S (commands_logged t).
Proof.
  rewrite build_cmd_run. cbn [snd]. rewrite commands_logged_app.
  unfold commands_logged at 2. cbn [filter length]. lia.
Qed.

(** The locator adds none. *)
Lemma locator_logs_no_command (host : Host) (t : trace) :
  commands_logged (snd (_find_executable host t)) = commands_logged t.
Proof.
  unfold _find_executable.
  destruct (truthy (shutil_which host (ustr "shellcheck"))).
  - unfold bind, print, emit, ret. cbn [snd].
    apply commands_logged_other. reflexivity.
  - unfold try_except, bundled_lookup, bind, lift.
    destruct (module_file host) as [f|e].
    + destruct f; cbn [os_path_dirname raise ret handle except_matches
                         existsb isinstance_exn is_subclass_upto exn_eqb
                         exn_base orb snd]; try reflexivity.
      destruct (path_isfile host _); unfold print, emit, ret; cbn [snd];
        apply commands_logged_other; reflexivity.
    + cbn [handle]. destruct (except_matches _ e); [|reflexivity].
      unfold print, emit, ret. cbn [snd].
      apply commands_logged_other. reflexivity.
Qed.

Lemma log_status_returns (codes : list pystr) (t : trace) :
  exists t', _log_status codes t = (Ret tt, t').
Proof.
  unfold _log_status, bind, print, emit, when, ret.
  destruct codes; eexists; reflexivity.
Qed.

(** C5: whenever the locator returns the absent value, construction
    completes without raising, with the empty ignore-code sequence and
    with no attribute set for the executable or the command; it adds
    nothing to what the locator logged, so no command was built. *)
Theorem disabled_when_executable_absent (host : Host) (t t1 : trace) :
  _find_executable host t = (Ret None, t1) ->
  __init__ host t
  = (Ret {| shellcheck_path := None; ignore_codes := [];
            inst_executable := None; inst_cmd := None |}, t1)
  /\ commands_logged t1 = commands_logged t.
Proof.
  intros Hl. split.
  - unfold __init__, bind. rewrite Hl. reflexivity.
  - pose proof (locator_logs_no_command host t) as Hc.
    rewrite Hl in Hc. exact Hc.
Qed.

Lemma disabled_when_executable_absent_witness :
  __init__ bare_host []
  = (Ret {| shellcheck_path := None; ignore_codes := [];
            inst_executable := None; inst_cmd := None |},
     [Print (LogWarnNotFound bundled_file)])
  /\ commands_logged [Print (LogWarnNotFound bundled_file)] = commands_logged [].
Proof.
  exact (@disabled_when_executable_absent bare_host []
           [Print (LogWarnNotFound bundled_file)] eq_refl).
Defined.

(** C9: after a construction in which the locator returned the absent
    value, [executable] and [cmd] are not set on the instance and read as
    the class defaults [shellcheck] and [(shellcheck, -f, gcc, -)].  Of
    the constructions that complete, those in which the locator found
    nothing are the only ones that leave the two attributes unset; every
    other one sets [executable] to the path found and [cmd] to the command
    built from it. *)
Theorem class_defaults_only_when_disabled (host : Host) (t t1 : trace)
  (r : option pystr) :
  _find_executable host t = (Ret r, t1) ->
  (r = None ->
   exists self,
     __init__ host t = (Ret self, t1) /\
     inst_executable self = None /\ inst_cmd self = None /\
     get_executable self = ustr "shellcheck" /\
     get_cmd self = [ustr "shellcheck"; ustr "-f"; ustr "gcc"; ustr "-"]) /\
  (forall self t',
     __init__ host t = (Ret self, t') ->
     if truthy r then
       exists p,
         r = Some p /\
         inst_executable self = Some p /\
         inst_cmd self
         = Some ([p; ustr "-f"; ustr "gcc"; ustr "-"]
                 ++ flat_map (fun code => [ustr "-e"; code]) (ignore_codes self)) /\
         get_executable self = p /\
         get_cmd self
         = [p; ustr "-f"; ustr "gcc"; ustr "-"]
           ++ flat_map (fun code => [ustr "-e"; code]) (ignore_codes self)
     else
       inst_executable self = None /\ inst_cmd self = None /\
       get_executable self = ustr "shellcheck" /\
       get_cmd self = [ustr "shellcheck"; ustr "-f"; ustr "gcc"; ustr "-"]).
Proof.
  intros Hl. split.
  - intros ->. eexists. split.
    + unfold __init__, bind. rewrite Hl. reflexivity.
    + repeat split.
  - intros self t'. unfold __init__, bind. rewrite Hl.
    destruct (truthy r) eqn:Hr; cbn [negb].
    + destruct r as [p|]; [|discriminate Hr].
      destruct (_load_config host t1) as [[codes|e] t2]; [|discriminate].
      rewrite build_cmd_run.
      destruct (log_status_returns codes
                  (t2 ++ [Print (LogCommand
                     (join (ustr " ")
                        ([p; ustr "-f"; ustr "gcc"; ustr "-"]
                         ++ ignore_flags codes)))]))
        as [t3 Hs].
      rewrite Hs. intros H. inversion H; subst.
      exists p. repeat split.
    + intros H. inversion H; subst. repeat split.
Qed.

Lemma class_defaults_only_when_disabled_witness :
  (exists self,
     __init__ bare_host [] = (Ret self, [Print (LogWarnNotFound bundled_file)]) /\
     inst_executable self = None /\ inst_cmd self = None /\
     get_executable self = ustr "shellcheck" /\
     get_cmd self = [ustr "shellcheck"; ustr "-f"; ustr "gcc"; ustr "-"]) /\
  (let self := {| shellcheck_path := Some (ustr "/usr/bin/shellcheck");
                  ignore_codes := [ustr "SC2034"; ustr "SC99"];
                  inst_executable := Some (ustr "/usr/bin/shellcheck");
                  inst_cmd := Some [ustr "/usr/bin/shellcheck"; ustr "-f";
                                    ustr "gcc"; ustr "-"; ustr "-e";
                                    ustr "SC2034"; ustr "-e"; ustr "SC99"] |} in
   exists p,
     Some (ustr "/usr/bin/shellcheck") = Some p /\
     inst_executable self = Some p /\
     inst_cmd self
     = Some ([p; ustr "-f"; ustr "gcc"; ustr "-"]
             ++ flat_map (fun code => [ustr "-e"; code]) (ignore_codes self)) /\
     get_executable self = p /\
     get_cmd self
     = [p; ustr "-f"; ustr "gcc"; ustr "-"]
       ++ flat_map (fun code => [ustr "-e"; code]) (ignore_codes self)).
Proof.
  split.
  - exact (proj1 (@class_defaults_only_when_disabled bare_host []
                    [Print (LogWarnNotFound bundled_file)] None eq_refl)
             eq_refl).
  - exact (proj2 (@class_defaults_only_when_disabled
                    (installed_host commented_config) []
                    [Print (LogFoundInPath (ustr "/usr/bin/shellcheck"))]
                    (Some (ustr "/usr/bin/shellcheck")) eq_refl)
             {| shellcheck_path := Some (ustr "/usr/bin/shellcheck");
                ignore_codes := [ustr "SC2034"; ustr "SC99"];
                inst_executable := Some (ustr "/usr/bin/shellcheck");
                inst_cmd := Some [ustr "/usr/bin/shellcheck"; ustr "-f";
                                  ustr "gcc"; ustr "-"; ustr "-e";
                                  ustr "SC2034"; ustr "-e"; ustr "SC99"] |}
             [Print (LogFoundInPath (ustr "/usr/bin/shellcheck"));
              Print (LogWarnInvalidCodes [PyStr (ustr "sc2154")]);
              Print (LogLoadedCodes [ustr "SC2034"; ustr "SC99"]);
              Print (LogCommand
                       (ustr "/usr/bin/shellcheck -f gcc - -e SC2034 -e SC99"));
              Print (LogActive 2 true);
              Print (LogIgnoring (ustr "SC2034, SC99"))]
             eq_refl).
Defined.

(** A construction with ShellCheck on the search path and the config of
    the scenario. *)
Example construct_with_config :
  __init__ (installed_host commented_config) []
  = (Ret {| shellcheck_path := Some (ustr "/usr/bin/shellcheck");
            ignore_codes := [ustr "SC2034"; ustr "SC99"];
            inst_executable := Some (ustr "/usr/bin/shellcheck");
            inst_cmd := Some [ustr "/usr/bin/shellcheck"; ustr "-f"; ustr "gcc";
                              ustr "-"; ustr "-e"; ustr "SC2034";
                              ustr "-e"; ustr "SC99"] |},
     [Print (LogFoundInPath (ustr "/usr/bin/shellcheck"));
      Print (LogWarnInvalidCodes [PyStr (ustr "sc2154")]);
      Print (LogLoadedCodes [ustr "SC2034"; ustr "SC99"]);
      Print (LogCommand (ustr "/usr/bin/shellcheck -f gcc - -e SC2034 -e SC99"));
      Print (LogActive 2 true);
      Print (LogIgnoring (ustr "SC2034, SC99"))]).
Proof. vm_compute. reflexivity. Qed.

(** ** The config action *)

(** The encoder writes the default object as [default_document], on every
    host: the object holds no float. *)
Lemma default_config_text (repr : pystr -> pystr) :
  json_encode repr 0 DEFAULT_CONFIG = default_document.
Proof. reflexivity. Qed.

(** Read back, the document is the default object: three codes, each
    one valid. *)
Lemma default_document_loads :
  json_loads cpython_limits default_document = Ret DEFAULT_CONFIG /\
  fst (_parse_and_validate_codes bare_host (strip_comments default_document) [])
  = Ret [ustr "SC2034"; ustr "SC2154"; ustr "SC2086"].
Proof. split; vm_compute; reflexivity. Qed.

(** C7, the claim as stated fails: on a host without a config file the
    action writes plain JSON, three codes and no rationale; the rationale
    of the source stays in the comments of the source. *)
Lemma default_document_has_no_rationale :
  config bare_host []
  = (Ret tt,
     [MakeDirs settings_dir; CreateFile settings_file;
      WriteFile settings_file default_document;
      Print (LogCreatedDefault settings_file);
      FileOpen settings_file; Print (LogOpenedConfig settings_file)])
  /\ has_rationale default_document = false.
Proof. split; vm_compute; reflexivity. Qed.

(** C7, amended: when the config file exists the action only asks the
    host to open it.  When it is absent the action creates the settings
    directory as needed, creates the file and writes [default_document],
    which holds exactly the three codes SC2034, SC2154 and SC2086 and no
    rationale, and then asks the host to open the file; if one of these
    steps fails, it shows the error dialog, logs the error and returns
    without asking the host to open the file. *)
Theorem config_action (host : Host) (t : trace) :
  let path := config_path host in
  let dir := path_dirname host path in
  (path_isfile host path = true ->
   config host t = (Ret tt, t ++ [FileOpen path; Print (LogOpenedConfig path)])) /\
  (path_isfile host path = false ->
   makedirs_failure host dir = None ->
   create_failure host path = None ->
   write_failure host path default_document = None ->
   config host t
   = (Ret tt,
      t ++ [MakeDirs dir; CreateFile path; WriteFile path default_document;
            Print (LogCreatedDefault path);
            FileOpen path; Print (LogOpenedConfig path)])) /\
  (forall e,
     path_isfile host path = false ->
     makedirs_failure host dir = Some e \/
     (makedirs_failure host dir = None /\ create_failure host path = Some e) \/
     (makedirs_failure host dir = None /\ create_failure host path = None /\
      write_failure host path default_document = Some e) ->
     exists done,
       config host t
       = (Ret tt,
          t ++ done ++ [MsgBoxCreateFailed e [MB_OK; MB_ICONERROR];
                        Print (LogErrCreateFailed e)]) /\
       file_open_requests
         (done ++ [MsgBoxCreateFailed e [MB_OK; MB_ICONERROR];
                   Print (LogErrCreateFailed e)]) = 0) /\
  json_loads cpython_limits default_document
  = Ret (PyDict [(ustr "ignore_codes",
                  PyList [PyStr (ustr "SC2034"); PyStr (ustr "SC2154");
                          PyStr (ustr "SC2086")])]) /\
  has_rationale default_document = false.
Proof.
  intros path dir.
  split; [|split; [|split; [|split; vm_compute; reflexivity]]].
  - intros Hf. unfold config. fold path. rewrite Hf. cbn [negb].
    unfold bind, print, emit, ret. rewrite <- app_assoc. reflexivity.
  - intros Hf Hm Hc Hw. unfold config, create_default. fold path. fold dir.
    rewrite Hf, default_config_text, Hm, Hc, Hw.
    unfold try_except, bind, attempt, print, emit, ret. cbn [negb].
    repeat rewrite <- app_assoc. reflexivity.
  - intros e Hf Hfail. unfold config, create_default. fold path. fold dir.
    rewrite Hf, default_config_text. cbn [negb].
    unfold try_except, bind.
    destruct Hfail as [Hm | [(Hm & Hc) | (Hm & Hc & Hw)]].
    + exists []. rewrite Hm.
      unfold attempt, raise, print, emit, ret. cbn [handle].
      unfold except_matches. cbn [existsb]. rewrite all_are_exceptions.
      cbn [orb app]. rewrite <- app_assoc. split; reflexivity.
    + exists [MakeDirs dir]. rewrite Hm, Hc.
      unfold attempt, raise, print, emit, ret. cbn [handle].
      unfold except_matches. cbn [existsb]. rewrite all_are_exceptions.
      cbn [orb app]. repeat rewrite <- app_assoc. split; reflexivity.
    + exists [MakeDirs dir; CreateFile path]. rewrite Hm, Hc, Hw.
      unfold attempt, raise, print, emit, ret. cbn [handle].
      unfold except_matches. cbn [existsb]. rewrite all_are_exceptions.
      cbn [orb app]. repeat rewrite <- app_assoc. split; reflexivity.
Qed.

Lemma config_action_witness :
  config (installed_host commented_config) []
  = (Ret tt, [FileOpen settings_file; Print (LogOpenedConfig settings_file)]) /\
  config bare_host []
  = (Ret tt,
     [MakeDirs settings_dir; CreateFile settings_file;
      WriteFile settings_file default_document;
      Print (LogCreatedDefault settings_file);
      FileOpen settings_file; Print (LogOpenedConfig settings_file)]) /\
  exists done,
    config readonly_host []
    = (Ret tt,
       [] ++ done ++ [MsgBoxCreateFailed PermissionError [MB_OK; MB_ICONERROR];
                      Print (LogErrCreateFailed PermissionError)]) /\
    file_open_requests
      (done ++ [MsgBoxCreateFailed PermissionError [MB_OK; MB_ICONERROR];
                Print (LogErrCreateFailed PermissionError)]) = 0.
Proof.
  split; [|split].
  - exact (proj1 (config_action (installed_host commented_config) []) eq_refl).
  - exact (proj1 (proj2 (config_action bare_host []))
             eq_refl eq_refl eq_refl eq_refl).
  - exact (proj1 (proj2 (proj2 (config_action readonly_host [])))
             PermissionError eq_refl
             (or_intror (or_introl (conj eq_refl eq_refl)))).
Defined.

(** ** The temp-file suffix *)

Lemma rfind_from_spec (c : N) (s : pystr) :
  forall i last,
    let r := rfind_from c s i last in
    (r = last /\ ~ In c s) \/
    ((i <= r < i + Z.of_nat (length s))%Z /\
     nth (Z.to_nat (r - i)) s 0%N = c /\
     forall j, Z.to_nat (r - i) < j -> j < length s -> nth j s 0%N <> c).
Proof.
  induction s as [|x s IH]; intros i last r.
  - left. split; [reflexivity | intros []].
  - subst r. cbn [rfind_from].
    destruct (IH (i + 1)%Z (if N.eqb x c then i else last))
      as [[Hr Hnot] | (Hrange & Hnth & Hlast)].
    + rewrite Hr. destruct (N.eqb x c) eqn:Hx.
      * apply N.eqb_eq in Hx. subst x. right.
        replace (Z.to_nat (i - i)) with 0 by lia.
        split; [cbn [length]; lia|]. split; [reflexivity|].
        intros j Hj Hlen. destruct j as [|j]; [lia|].
        cbn [nth]. intros Heq. apply Hnot. rewrite <- Heq.
        apply nth_In. cbn [length] in Hlen. lia.
      * left. split; [reflexivity|].
        intros [Heq | Hin]; [|exact (Hnot Hin)].
        subst x. rewrite N.eqb_refl in Hx. discriminate.
    + right.
      set (r := rfind_from c s (i + 1)%Z (if N.eqb x c then i else last)) in *.
      replace (Z.to_nat (r - i)) with (S (Z.to_nat (r - (i + 1)))) by lia.
      split; [cbn [length]; lia|]. split; [exact Hnth|].
      intros j Hj Hlen. destruct j as [|j]; [lia|].
      cbn [nth]. apply Hlast; [lia | cbn [length] in Hlen; lia].
Qed.

(** [rfind] gives -1 when the character does not occur, and its last
    index otherwise. *)
Lemma rfind_spec (c : N) (s : pystr) :
  (rfind c s = (-1)%Z /\ ~ In c s) \/
  ((0 <= rfind c s < Z.of_nat (length s))%Z /\
   nth (Z.to_nat (rfind c s)) s 0%N = c /\
   forall j, Z.to_nat (rfind c s) < j -> j < length s -> nth j s 0%N <> c).
Proof.
  unfold rfind.
  destruct (rfind_from_spec c s 0%Z (-1)%Z) as [H | (Hr & Hn & Hl)].
  - left. exact H.
  - right. rewrite Z.sub_0_r in Hn, Hl. split; [lia|]. split; assumption.
Qed.

Lemma not_after_rfind (c : N) (s : pystr) (j : nat) :
  (rfind c s < Z.of_nat j)%Z -> j < length s -> nth j s 0%N <> c.
Proof.
  intros Hj Hlen.
  destruct (rfind_spec c s) as [[_ Hnot] | (Hr & _ & Hlast)].
  - intros Heq. apply Hnot. rewrite <- Heq. apply nth_In. exact Hlen.
  - apply Hlast; [lia | exact Hlen].
Qed.

Lemma skipn_nth (n : nat) (s : pystr) :
  n < length s -> skipn n s = nth n s 0%N :: skipn (S n) s.
Proof.
  revert s. induction n as [|n IH]; intros [|x s] Hn;
    cbn [length] in Hn; try lia; [reflexivity|].
  cbn [skipn nth]. apply IH. lia.
Qed.

Lemma in_skipn_nth (n : nat) (s : pystr) (x : N) :
  In x (skipn n s) -> exists j, n <= j /\ j < length s /\ nth j s 0%N = x.
Proof.
  revert s. induction n as [|n IH]; intros s Hin.
  - apply (In_nth _ _ 0%N) in Hin. destruct Hin as (j & Hj & Hx).
    exists j. cbn [skipn] in Hj. split; [lia|]. split; assumption.
  - destruct s as [|y s]; [destruct Hin|].
    cbn [skipn] in Hin. destruct (IH s Hin) as (j & Hj & Hlen & Hx).
    exists (S j). cbn [length nth]. split; [lia|]. split; [lia | exact Hx].
Qed.

(** What [splitext] calls the extension: the two parts make up the name,
    and the second is empty or runs from the last dot of the name to its
    end, without another dot and without a path separator. *)
Lemma splitext_extension (sep : N) (altsep : option N) (p : pystr) :
  fst (splitext sep altsep p) ++ snd (splitext sep altsep p) = p /\
  (snd (splitext sep altsep p) = [] \/
   exists rest,
     snd (splitext sep altsep p) = 46%N :: rest /\
     ~ In 46%N rest /\ ~ In sep rest /\
     forall a, altsep = Some a -> ~ In a rest).
Proof.
  unfold splitext.
  set (sepIndex := match altsep with
                   | Some a => Z.max (rfind sep p) (rfind a p)
                   | None => rfind sep p
                   end).
  destruct (Z.ltb sepIndex (rfind 46 p)
            && non_dot_before p (sepIndex + 1)
                 (Z.to_nat (rfind 46 p - (sepIndex + 1)))) eqn:Hc;
    cbn [fst snd]; [|split; [apply app_nil_r | left; reflexivity]].
  split; [apply firstn_skipn|]. right.
  apply andb_prop in Hc. destruct Hc as [Hlt _]. apply Z.ltb_lt in Hlt.
  assert (Hsep : (rfind sep p <= sepIndex)%Z)
    by (unfold sepIndex; destruct altsep; lia).
  assert (Hsep_min : (-1 <= rfind sep p)%Z)
    by (destruct (rfind_spec sep p) as [[-> _] | [? _]]; lia).
  destruct (rfind_spec 46 p) as [[Hd _] | (Hr & Hn & Hlast)]; [lia|].
  exists (skipn (S (Z.to_nat (rfind 46 p))) p).
  split; [rewrite skipn_nth by lia; rewrite Hn; reflexivity|].
  split; [|split].
  - intros Hin. apply in_skipn_nth in Hin. destruct Hin as (j & Hj & Hlen & Hx).
    exact (Hlast j ltac:(lia) Hlen Hx).
  - intros Hin. apply in_skipn_nth in Hin. destruct Hin as (j & Hj & Hlen & Hx).
    exact (@not_after_rfind sep p j ltac:(lia) Hlen Hx).
  - intros a Ha Hin. apply in_skipn_nth in Hin.
    destruct Hin as (j & Hj & Hlen & Hx).
    assert (Halt : (rfind a p <= sepIndex)%Z)
      by (unfold sepIndex; rewrite Ha; lia).
    exact (@not_after_rfind a p j ltac:(lia) Hlen Hx).
Qed.

(** C8: for every file name the override passes to the host the
    extension of the name when [splitext] finds one (the part of the name
    from its last dot on), and [.sh] when it finds none; the suffix is a
    function of the file name, whatever the command, the buffer text and
    the suffix asked for. *)
Theorem tmpfile_suffix_from_filename (host : Host) (R : Type)
  (super_tmpfile : list pystr -> pystr -> pystr -> R)
  (filename : pystr) (cmd : list pystr) (code suffix : pystr) :
  let ext := snd (splitext (path_sep host) (path_altsep host) filename) in
  (ext <> [] ->
   tmpfile host super_tmpfile filename cmd code suffix
   = super_tmpfile cmd code ext /\
   exists root rest,
     filename = root ++ ext /\ ext = 46%N :: rest /\ ~ In 46%N rest /\
     ~ In (path_sep host) rest) /\
  (ext = [] ->
   tmpfile host super_tmpfile filename cmd code suffix
   = super_tmpfile cmd code (ustr ".sh")) /\
  (forall cmd' code' suffix',
     tmpfile host (fun _ _ chosen => chosen) filename cmd code suffix
     = tmpfile host (fun _ _ chosen => chosen) filename cmd' code' suffix').
Proof.
  intros ext. unfold tmpfile. fold ext.
  split; [|split].
  - intros Hne. split; [destruct ext; [congruence | reflexivity]|].
    destruct (splitext_extension (path_sep host) (path_altsep host) filename)
      as [Hcat [Hnil | (rest & Hext & Hdot & Hsep & _)]]; [contradiction|].
    exists (fst (splitext (path_sep host) (path_altsep host) filename)), rest.
    split; [symmetry; exact Hcat|]. split; [exact Hext|]. split; assumption.
  - intros ->. reflexivity.
  - reflexivity.
Qed.

Lemma tmpfile_suffix_from_filename_witness :
  (tmpfile bare_host (fun _ _ chosen => chosen) (ustr "/home/me/deploy.bash")
     class_cmd (ustr "echo hi") []
   = ustr ".bash" /\
   exists root rest,
     ustr "/home/me/deploy.bash" = root ++ ustr ".bash" /\
     ustr ".bash" = 46%N :: rest /\ ~ In 46%N rest /\ ~ In 47%N rest) /\
  tmpfile bare_host (fun _ _ chosen => chosen) (ustr "/home/me/.bashrc")
    class_cmd (ustr "echo hi") (ustr "txt")
  = ustr ".sh".
Proof.
  split.
  - refine (proj1 (@tmpfile_suffix_from_filename bare_host pystr
                     (fun _ _ chosen => chosen) (ustr "/home/me/deploy.bash")
                     class_cmd (ustr "echo hi") []) _).
    vm_compute. discriminate.
  - exact (proj1 (proj2 (@tmpfile_suffix_from_filename bare_host pystr
                     (fun _ _ chosen => chosen) (ustr "/home/me/.bashrc")
                     class_cmd (ustr "echo hi") (ustr "txt"))) eq_refl).
Defined.

(** ** More on the locator *)

(** The candidate for the bundled copy: three directories up from the
    module, then [ShellCheck], then the name for the platform. *)
Lemma bundled_lookup_run (host : Host) (f : pystr) (t : trace) :
  module_file host = Ret (PyStr f) ->
  let exe := if str_eqb (os_name host) (ustr "nt")
             then ustr "shellcheck.exe" else ustr "shellcheck" in
  let bundled :=
    path_join host
      (path_dirname host (path_dirname host (path_dirname host f)))
      [ustr "ShellCheck"; exe] in
  bundled_lookup host t
  = if path_isfile host bundled
    then (Ret (Some bundled), t ++ [Print (LogUsingBundled bundled)])
    else (Ret None, t ++ [Print (LogWarnNotFound bundled)]).
Proof.
  intros Hf exe bundled. unfold bundled_lookup, bind, lift. rewrite Hf.
  cbn [os_path_dirname ret]. fold exe. fold bundled.
  destruct (path_isfile host bundled); reflexivity.
Qed.

(** The computation of the bundled path raises only what looking up
    [__file__] raises, or [TypeError] when [__file__] is not a string. *)
Lemma bundled_lookup_raises (host : Host) (t t' : trace) (e : exn_class) :
  bundled_lookup host t = (Raise e, t') ->
  t' = t /\
  (module_file host = Raise e \/
   (e = TypeError /\ exists v, module_file host = Ret v /\
                               forall s, v <> PyStr s)).
Proof.
  unfold bundled_lookup, bind, lift.
  destruct (module_file host) as [v|e0] eqn:Hm.
  - destruct v; cbn [os_path_dirname raise ret];
      try (intros H; inversion H; subst; split; [reflexivity|]; right;
           split; [reflexivity|]; eexists; split; [reflexivity|];
           intros s; discriminate).
    destruct (path_isfile host _); intros H; discriminate H.
  - intros H. inversion H; subst. split; [reflexivity | left; reflexivity].
Qed.

(** X1: a path the locator returns is the one found on the search path
    when there is one, whatever is bundled; otherwise it is the bundled
    candidate, three directories above the module under [ShellCheck],
    and a regular file exists there. *)
Theorem locator_result_is_checked (host : Host) (t t' : trace) (p : pystr) :
  _find_executable host t = (Ret (Some p), t') ->
  (shutil_which host (ustr "shellcheck") = Some p /\ p <> []) \/
  (truthy (shutil_which host (ustr "shellcheck")) = false /\
   path_isfile host p = true /\
   exists f,
     module_file host = Ret (PyStr f) /\
     p = path_join host
           (path_dirname host (path_dirname host (path_dirname host f)))
           [ustr "ShellCheck";
            if str_eqb (os_name host) (ustr "nt")
            then ustr "shellcheck.exe" else ustr "shellcheck"]).
Proof.
  unfold _find_executable.
  destruct (truthy (shutil_which host (ustr "shellcheck"))) eqn:Hw.
  - unfold bind, print, emit, ret. intros H. inversion H as [[Hp Ht]].
    left. split; [reflexivity|].
    rewrite Hp in Hw. destruct p; [discriminate Hw | discriminate].
  - intros H. right. split; [reflexivity|].
    unfold try_except in H.
    destruct (bundled_lookup host t) as [[r|e] t1] eqn:Hb.
    + inversion H; subst r t1.
      unfold bundled_lookup, bind, lift in Hb.
      destruct (module_file host) as [v|e0] eqn:Hm; [|discriminate Hb].
      destruct v as [| | | |f| |]; try discriminate Hb.
      cbn [os_path_dirname ret] in Hb.
      destruct (path_isfile host _) eqn:Hi; [|discriminate Hb].
      unfold print, emit, ret in Hb. inversion Hb; subst.
      split; [exact Hi|].
      exists f. split; reflexivity.
    + cbn [handle] in H.
      destruct (except_matches [NameError; AttributeError] e);
        [|discriminate H].
      unfold bind, print, emit, ret in H. discriminate H.
Qed.

Lemma locator_result_is_checked_witness :
  (shutil_which bundled_host (ustr "shellcheck") = Some bundled_file /\
   bundled_file <> []) \/
  (truthy (shutil_which bundled_host (ustr "shellcheck")) = false /\
   path_isfile bundled_host bundled_file = true /\
   exists f,
     module_file bundled_host = Ret (PyStr f) /\
     bundled_file
     = path_join bundled_host
         (path_dirname bundled_host
            (path_dirname bundled_host (path_dirname bundled_host f)))
         [ustr "ShellCheck";
          if str_eqb (os_name bundled_host) (ustr "nt")
          then ustr "shellcheck.exe" else ustr "shellcheck"]).
Proof.
  exact (@locator_result_is_checked bundled_host []
           [Print (LogUsingBundled bundled_file)] bundled_file eq_refl).
Defined.

Lemma type_error_not_handled :
  except_matches [NameError; AttributeError] TypeError = false.
Proof. reflexivity. Qed.

(** X2: a run of the locator that returns logs exactly one line, and the
    line tells the way the run took.  A path from the search path is
    logged as found there; with nothing on the search path, a bundled
    copy is logged as the bundled version, a missing one as a warning
    that names the place looked at, and a failed lookup of [__file__] as
    a warning that carries the exception. *)
Theorem locator_logs_one_line (host : Host) (t t' : trace)
  (r : option pystr) :
  _find_executable host t = (Ret r, t') ->
  exists line,
    t' = t ++ [Print line] /\
    match r with
    | Some p =>
        (shutil_which host (ustr "shellcheck") = Some p /\
         truthy (shutil_which host (ustr "shellcheck")) = true /\
         line = LogFoundInPath p) \/
        (truthy (shutil_which host (ustr "shellcheck")) = false /\
         path_isfile host p = true /\
         line = LogUsingBundled p)
    | None =>
        truthy (shutil_which host (ustr "shellcheck")) = false /\
        ((exists f,
            module_file host = Ret (PyStr f) /\
            let bundled :=
              path_join host
                (path_dirname host (path_dirname host (path_dirname host f)))
                [ustr "ShellCheck";
                 if str_eqb (os_name host) (ustr "nt")
                 then ustr "shellcheck.exe" else ustr "shellcheck"] in
            path_isfile host bundled = false /\
            line = LogWarnNotFound bundled) \/
         (exists e,
            module_file host = Raise e /\
            except_matches [NameError; AttributeError] e = true /\
            line = LogWarnCannotLocate e))
    end.
Proof.
  unfold _find_executable.
  destruct (truthy (shutil_which host (ustr "shellcheck"))) eqn:Hw.
  - unfold bind, print, emit, ret. intros H. inversion H; subst.
    destruct (shutil_which host (ustr "shellcheck")) as [p|];
      [|discriminate Hw].
    eexists. split; [reflexivity|]. left. repeat split.
  - unfold try_except.
    destruct (bundled_lookup host t) as [[r0|e] t1] eqn:Hb.
    + intros H. inversion H; subst r0 t1.
      unfold bundled_lookup, bind, lift in Hb.
      destruct (module_file host) as [v|e0] eqn:Hm; [|discriminate Hb].
      destruct v as [| | | |f| |]; try discriminate Hb.
      cbn [os_path_dirname ret] in Hb.
      destruct (path_isfile host _) eqn:Hi;
        unfold print, emit, ret in Hb; inversion Hb; subst;
        eexists; (split; [reflexivity|]).
      * right. split; [reflexivity|]. split; [exact Hi | reflexivity].
      * split; [reflexivity|]. left. exists f.
        split; [reflexivity|]. split; [exact Hi | reflexivity].
    + cbn [handle].
      destruct (except_matches [NameError; AttributeError] e) eqn:He;
        [|discriminate].
      apply bundled_lookup_raises in Hb. destruct Hb as [-> Hsrc].
      unfold bind, print, emit, ret. intros H. inversion H; subst.
      eexists. split; [reflexivity|]. split; [reflexivity|]. right.
      exists e. destruct Hsrc as [Hm | [-> _]].
      * split; [exact Hm|]. split; [exact He | reflexivity].
      * rewrite type_error_not_handled in He. discriminate He.
Qed.

Lemma locator_logs_one_line_witness :
  (exists line,
     [Print (LogUsingBundled bundled_file)] = [] ++ [Print line] /\
     ((shutil_which bundled_host (ustr "shellcheck") = Some bundled_file /\
       truthy (shutil_which bundled_host (ustr "shellcheck")) = true /\
       line = LogFoundInPath bundled_file) \/
      (truthy (shutil_which bundled_host (ustr "shellcheck")) = false /\
       path_isfile bundled_host bundled_file = true /\
       line = LogUsingBundled bundled_file))) /\
  (exists line,
     [Print (LogWarnCannotLocate NameError)] = [] ++ [Print line] /\
     truthy (shutil_which nameless_host (ustr "shellcheck")) = false /\
     ((exists f,
         module_file nameless_host = Ret (PyStr f) /\
         let bundled :=
           path_join nameless_host
             (path_dirname nameless_host
                (path_dirname nameless_host (path_dirname nameless_host f)))
             [ustr "ShellCheck";
              if str_eqb (os_name nameless_host) (ustr "nt")
              then ustr "shellcheck.exe" else ustr "shellcheck"] in
         path_isfile nameless_host bundled = false /\
         line = LogWarnNotFound bundled) \/
      (exists e,
         module_file nameless_host = Raise e /\
         except_matches [NameError; AttributeError] e = true /\
         line = LogWarnCannotLocate e))).
Proof.
  split.
  - exact (@locator_logs_one_line bundled_host []
             [Print (LogUsingBundled bundled_file)] (Some bundled_file)
             eq_refl).
  - exact (@locator_logs_one_line nameless_host []
             [Print (LogWarnCannotLocate NameError)] None eq_refl).
Defined.

(** ** More on reading the config *)

(** Every way [_read_config_file] can end. *)
Lemma read_config_outcome (host : Host) (path : pystr) (t : trace) :
  exists r t',
    _read_config_file host path t = (Ret r, t') /\
    match r with
    | Some content =>
        t' = t /\
        (exists text, content = strip_comments text /\
           (read_text host Utf8 path = Ret text \/
            (exists e0,
               read_text host Utf8 path = Raise e0 /\
               isinstance_exn e0 UnicodeDecodeError = true) /\
            read_text host LocaleDefault path = Ret text))
    | None =>
        exists e,
          (t' = t ++ [Print (LogErrRead e)] /\
           read_text host Utf8 path = Raise e /\
           isinstance_exn e UnicodeDecodeError = false) \/
          (t' = t ++ [Print (LogErrReadFallback e)] /\
           (exists e0,
              read_text host Utf8 path = Raise e0 /\
              isinstance_exn e0 UnicodeDecodeError = true) /\
           read_text host LocaleDefault path = Raise e)
    end.
Proof.
  unfold _read_config_file, try_except, read_stripped, bind, lift, ret.
  destruct (read_text host Utf8 path) as [text|e] eqn:Hu.
  - exists (Some (strip_comments text)), t. split; [reflexivity|].
    split; [reflexivity|]. exists text. split; [reflexivity | left; reflexivity].
  - cbn [handle]. unfold except_matches at 1. cbn [existsb].
    destruct (isinstance_exn e UnicodeDecodeError) eqn:He; cbn [orb].
    + destruct (read_text host LocaleDefault path) as [text|e'] eqn:Hd.
      * exists (Some (strip_comments text)), t. split; [reflexivity|].
        split; [reflexivity|]. exists text.
        split; [reflexivity|]. right.
        split; [exists e; split; [reflexivity | exact He] | reflexivity].
      * cbn [handle]. unfold except_matches. cbn [existsb].
        rewrite all_are_exceptions. cbn [orb].
        unfold print, emit. eexists None, _. split; [reflexivity|].
        exists e'. right. split; [reflexivity|].
        split; [exists e; split; [reflexivity | exact He] | reflexivity].
    + unfold except_matches. cbn [existsb].
      rewrite all_are_exceptions. cbn [orb].
      unfold print, emit. eexists None, _. split; [reflexivity|].
      exists e. left. split; [reflexivity|]. split; [reflexivity | exact He].
Qed.

(** X3: reading the config file never raises, and its result is fixed by
    the two decodings.  It gives the stripped text of the UTF-8 decoding
    when that succeeds; the stripped text of the default decoding when
    the UTF-8 attempt raised a [UnicodeDecodeError]; and otherwise [None],
    logging the one error that stopped it: the error of the first attempt
    when that is no [UnicodeDecodeError], the error of the retry when the
    first attempt raised one.  Nothing is logged when a text is given. *)
Theorem read_config_never_raises (host : Host) (path : pystr) (t : trace) :
  exists r t',
    _read_config_file host path t = (Ret r, t') /\
    match r with
    | Some content =>
        t' = t /\
        (exists text, content = strip_comments text /\
           (read_text host Utf8 path = Ret text \/
            (exists e0,
               read_text host Utf8 path = Raise e0 /\
               isinstance_exn e0 UnicodeDecodeError = true) /\
            read_text host LocaleDefault path = Ret text))
    | None =>
        exists e,
          (t' = t ++ [Print (LogErrRead e)] /\
           read_text host Utf8 path = Raise e /\
           isinstance_exn e UnicodeDecodeError = false) \/
          (t' = t ++ [Print (LogErrReadFallback e)] /\
           (exists e0,
              read_text host Utf8 path = Raise e0 /\
              isinstance_exn e0 UnicodeDecodeError = true) /\
           read_text host LocaleDefault path = Raise e)
    end.
Proof. apply read_config_outcome. Qed.

(** ** More on validation *)

Lemma filter_keeps_all {A : Type} (f : A -> bool) (l : list A) :
  length (filter f l) = length l <-> forallb f l = true.
Proof.
  induction l as [|x l IH]; [split; reflexivity|].
  cbn [filter forallb]. destruct (f x); cbn [andb length].
  - rewrite <- IH. split; [intros H; injection H; auto | intros ->; reflexivity].
  - pose proof (filter_length_le f l). split; [lia | discriminate].
Qed.

Lemma filter_id {A : Type} (f : A -> bool) (l : list A) :
  forallb f l = true -> filter f l = l.
Proof.
  induction l as [|x l IH]; [reflexivity|].
  cbn [filter forallb]. intros H. apply andb_prop in H. destruct H as [Hx Hl].
  rewrite Hx, IH by exact Hl. reflexivity.
Qed.

Lemma length_valid (codes : list pyval) :
  length (strings_of (filter is_valid_code codes))
  = length (filter is_valid_code codes).
Proof. rewrite <- (strings_of_valid codes) at 2. rewrite length_map. reflexivity. Qed.

Lemma in_strings_of (l : list pyval) (s : pystr) :
  In s (strings_of l) <-> In (PyStr s) l.
Proof.
  unfold strings_of. rewrite in_flat_map. split.
  - intros (x & Hx & Hs). destruct x; try destruct Hs.
    + subst. exact Hx.
    + contradiction.
  - intros H. exists (PyStr s). split; [exact H | left; reflexivity].
Qed.

Lemma in_valid (codes : list pyval) (s : pystr) :
  In s (strings_of (filter is_valid_code codes)) <->
  In (PyStr s) codes /\ is_valid_code (PyStr s) = true.
Proof. rewrite in_strings_of, filter_In. reflexivity. Qed.

(** [c not in valid] singles out the entries that fail the check. *)
Lemma py_in_valid (codes : list pyval) (c : pyval) :
  In c codes ->
  py_in c (strings_of (filter is_valid_code codes)) = is_valid_code c.
Proof.
  intros Hin. destruct c as [| | | |s| |]; try reflexivity.
  unfold py_in.
  destruct (is_valid_code (PyStr s)) eqn:Hv.
  - apply existsb_exists. exists s. split; [|apply str_eqb_refl].
    apply in_valid. split; assumption.
  - destruct (existsb _ _) eqn:He; [|reflexivity].
    apply existsb_exists in He. destruct He as (x & Hx & Heq).
    apply str_eqb_eq in Heq. subst x.
    apply in_valid in Hx. destruct Hx as [_ Hx]. congruence.
Qed.

(** The whole run of the loader on an object whose [ignore_codes] is an
    array. *)
Lemma parse_array_run (host : Host) (content : pystr)
  (items : list (pystr * pyval)) (codes : list pyval) (t : trace) :
  json_loads (limits host) content = Ret (PyDict items) ->
  dict_get (ustr "ignore_codes") items (PyList []) = PyList codes ->
  let valid := strings_of (filter is_valid_code codes) in
  _parse_and_validate_codes host content t
  = (Ret valid,
     t ++ (if forallb is_valid_code codes then []
           else [Print (LogWarnInvalidCodes
                          (filter (fun c => negb (is_valid_code c)) codes))])
       ++ match valid with
          | [] => []
          | _ => [Print (LogLoadedCodes valid)]
          end).
Proof.
  intros Hj Hd valid.
  unfold _parse_and_validate_codes, try_except, bind, lift.
  rewrite Hj, Hd. fold valid.
  assert (Hinv : filter (fun c => negb (py_in c valid)) codes
                 = filter (fun c => negb (is_valid_code c)) codes).
  { apply filter_ext_in. intros c Hc. unfold valid.
    rewrite py_in_valid by exact Hc. reflexivity. }
  rewrite Hinv.
  assert (Hlen : Nat.eqb (length valid) (length codes)
                 = forallb is_valid_code codes).
  { unfold valid. rewrite length_valid.
    destruct (forallb is_valid_code codes) eqn:Hall.
    - apply Nat.eqb_eq, filter_keeps_all, Hall.
    - apply Nat.eqb_neq. intros Heq. apply filter_keeps_all in Heq. congruence. }
  rewrite Hlen.
  unfold when, print, emit, ret.
  destruct (forallb is_valid_code codes); destruct valid; cbn [negb app];
    rewrite ?app_nil_r, <- ?app_assoc; reflexivity.
Qed.

Lemma valid_strings_pass (codes : list pyval) :
  Forall (fun s => is_valid_code (PyStr s) = true)
    (strings_of (filter is_valid_code codes)).
Proof.
  apply Forall_forall. intros s Hs. apply in_valid in Hs. apply Hs.
Qed.

Lemma parse_result_valid (host : Host) (content : pystr) (t t' : trace)
  (codes : list pystr) :
  _parse_and_validate_codes host content t = (Ret codes, t') ->
  Forall (fun s => is_valid_code (PyStr s) = true) codes.
Proof.
  destruct (json_loads (limits host) content) as [v|e] eqn:Hj.
  - destruct v as [| | | | | |items];
      try (rewrite (@parse_not_object host content _ t Hj)
             by (intros ?; discriminate);
           intros H; inversion H; constructor).
    destruct (dict_get (ustr "ignore_codes") items (PyList [])) as [| | | | |l|]
      eqn:Hd;
      try (rewrite (@parse_not_array host content items t Hj)
             by (intros ?; rewrite Hd; discriminate);
           intros H; inversion H; constructor).
    rewrite (@parse_array_run host content items l t Hj Hd).
    intros H. inversion H. apply valid_strings_pass.
  - unfold _parse_and_validate_codes, try_except, bind, lift.
    rewrite Hj. cbn [handle].
    destruct (except_matches [JSONDecodeError] e); [|discriminate].
    unfold print, emit, ret. intros H. inversion H. constructor.
Qed.

Lemma parse_raises (host : Host) (content : pystr) (t t' : trace)
  (e : exn_class) :
  _parse_and_validate_codes host content t = (Raise e, t') ->
  t' = t /\ json_loads (limits host) content = Raise e /\
  isinstance_exn e JSONDecodeError = false.
Proof.
  destruct (json_loads (limits host) content) as [v|e0] eqn:Hj.
  - destruct v as [| | | | | |items];
      try (rewrite (@parse_not_object host content _ t Hj)
             by (intros ?; discriminate); discriminate).
    destruct (dict_get (ustr "ignore_codes") items (PyList [])) as [| | | | |l|]
      eqn:Hd;
      try (rewrite (@parse_not_array host content items t Hj)
             by (intros ?; rewrite Hd; discriminate); discriminate).
    rewrite (@parse_array_run host content items l t Hj Hd). discriminate.
  - unfold _parse_and_validate_codes, try_except, bind, lift.
    rewrite Hj. cbn [handle]. unfold except_matches. cbn [existsb].
    destruct (isinstance_exn e0 JSONDecodeError) eqn:He; cbn [orb].
    + unfold print, emit, ret. discriminate.
    + unfold raise. intros H. inversion H; subst. repeat split. exact He.
Qed.

(** X4: every code the loader returns passes the check of the
    comprehension: it is a string that starts with SC and continues with
    one or more digits.  This holds whichever way the loader took: no
    file, a file it could not read, a malformed config, or an array. *)
Theorem loaded_codes_are_valid (host : Host) (t t' : trace)
  (codes : list pystr) :
  _load_config host t = (Ret codes, t') ->
  Forall (fun s => startswith (ustr "SC") s = true
                   /\ isdigit (slice_from 2 s) = true) codes.
Proof.
  intros H.
  assert (Hv : Forall (fun s => is_valid_code (PyStr s) = true) codes).
  { unfold _load_config in H.
    destruct (path_isfile host (config_path host));
      cbn [negb] in H; [|inversion H; constructor].
    unfold bind in H.
    destruct (read_config_outcome host (config_path host) t)
      as (r & t1 & Hr & _).
    rewrite Hr in H.
    destruct (truthy r); cbn [negb] in H; [|inversion H; constructor].
    eapply parse_result_valid. exact H. }
  eapply Forall_impl; [|exact Hv].
  intros s Hs. apply andb_prop in Hs. exact Hs.
Qed.

Lemma loaded_codes_are_valid_witness :
  Forall (fun s => startswith (ustr "SC") s = true
                   /\ isdigit (slice_from 2 s) = true)
    [ustr "SC2034"; ustr "SC99"].
Proof.
  exact (@loaded_codes_are_valid (installed_host commented_config) []
           [Print (LogWarnInvalidCodes [PyStr (ustr "sc2154")]);
            Print (LogLoadedCodes [ustr "SC2034"; ustr "SC99"])]
           [ustr "SC2034"; ustr "SC99"] eq_refl).
Defined.

(** X5: the loader raises only what [json.loads] raised on the stripped
    text of the config, and only when that is not a [JSONDecodeError];
    nothing has been logged by then. *)
Theorem loader_raises_only_from_parser (host : Host) (t t' : trace)
  (e : exn_class) :
  _load_config host t = (Raise e, t') ->
  t' = t /\
  exists content,
    _read_config_file host (config_path host) t = (Ret (Some content), t) /\
    json_loads (limits host) content = Raise e /\
    isinstance_exn e JSONDecodeError = false.
Proof.
  unfold _load_config.
  destruct (path_isfile host (config_path host)); cbn [negb]; [|discriminate].
  unfold bind.
  destruct (read_config_outcome host (config_path host) t)
    as (r & t1 & Hr & Hshape).
  rewrite Hr.
  destruct r as [content|]; [|discriminate].
  destruct Hshape as [-> _].
  destruct content as [|c content]; cbn [truthy negb]; [discriminate|].
  intros H. apply parse_raises in H. destruct H as (-> & Hj & He).
  split; [reflexivity|]. exists (c :: content). repeat split; assumption.
Qed.

Lemma loader_raises_only_from_parser_witness :
  let host := installed_host (repeat 91%N 991) in
  [] = ([] : trace) /\
  exists content,
    _read_config_file host (config_path host) [] = (Ret (Some content), []) /\
    json_loads (limits host) content = Raise RecursionError /\
    isinstance_exn RecursionError JSONDecodeError = false.
Proof.
  exact (@loader_raises_only_from_parser (installed_host (repeat 91%N 991))
           [] [] RecursionError
           (eq_refl : _load_config (installed_host (repeat 91%N 991)) []
                      = (Raise RecursionError, []))).
Defined.

(** X6: when every entry of the array passes the check, the loaded
    sequence is the whole array in its order, and no warning is logged:
    the log gets the loaded codes, or nothing for an empty array. *)
Theorem valid_array_loads_whole (host : Host) (content : pystr)
  (items : list (pystr * pyval)) (codes : list pystr) (t : trace) :
  json_loads (limits host) content = Ret (PyDict items) ->
  dict_get (ustr "ignore_codes") items (PyList []) = PyList (map PyStr codes) ->
  Forall (fun s => is_valid_code (PyStr s) = true) codes ->
  _parse_and_validate_codes host content t
  = (Ret codes,
     t ++ match codes with
          | [] => []
          | _ => [Print (LogLoadedCodes codes)]
          end).
Proof.
  intros Hj Hd Hall.
  assert (Hf : forallb is_valid_code (map PyStr codes) = true).
  { apply forallb_forall. intros c Hc. apply in_map_iff in Hc.
    destruct Hc as (s & <- & Hs). rewrite Forall_forall in Hall. apply Hall, Hs. }
  rewrite (@parse_array_run host content items (map PyStr codes) t Hj Hd).
  rewrite Hf, (filter_id _ _ Hf).
  assert (Hs : strings_of (map PyStr codes) = codes).
  { clear. induction codes as [|s l IH]; [reflexivity|].
    change (strings_of (map PyStr (s :: l))) with (s :: strings_of (map PyStr l)).
    rewrite IH. reflexivity. }
  rewrite Hs. reflexivity.
Qed.

Lemma valid_array_loads_whole_witness :
  _parse_and_validate_codes bare_host
    (jstr "{'ignore_codes': ['SC2086', 'SC1', 'SC2086']}") []
  = (Ret [ustr "SC2086"; ustr "SC1"; ustr "SC2086"],
     [Print (LogLoadedCodes [ustr "SC2086"; ustr "SC1"; ustr "SC2086"])]).
Proof.
  refine (@valid_array_loads_whole bare_host
            (jstr "{'ignore_codes': ['SC2086', 'SC1', 'SC2086']}")
            [(ustr "ignore_codes",
              PyList [PyStr (ustr "SC2086"); PyStr (ustr "SC1");
                      PyStr (ustr "SC2086")])]
            [ustr "SC2086"; ustr "SC1"; ustr "SC2086"] [] eq_refl eq_refl _).
  repeat constructor.
Defined.

(** X7: when some entry of the array fails the check, the loader logs
    one warning, before the loaded codes, and the warning lists exactly
    the entries that fail the check, in the order of the array; each
    entry of the array is either loaded or listed. *)
Theorem invalid_entries_are_reported (host : Host) (content : pystr)
  (items : list (pystr * pyval)) (codes : list pyval) (t : trace) :
  json_loads (limits host) content = Ret (PyDict items) ->
  dict_get (ustr "ignore_codes") items (PyList []) = PyList codes ->
  forallb is_valid_code codes = false ->
  let valid := strings_of (filter is_valid_code codes) in
  let invalid := filter (fun c => negb (is_valid_code c)) codes in
  _parse_and_validate_codes host content t
  = (Ret valid,
     t ++ [Print (LogWarnInvalidCodes invalid)]
       ++ match valid with
          | [] => []
          | _ => [Print (LogLoadedCodes valid)]
          end)
  /\ invalid <> []
  /\ length valid + length invalid = length codes.
Proof.
  intros Hj Hd Hall valid invalid.
  split; [|split].
  - rewrite (@parse_array_run host content items codes t Hj Hd).
    rewrite Hall. reflexivity.
  - unfold invalid. intros Hnil.
    assert (forallb is_valid_code codes = true); [|congruence].
    apply forallb_forall. intros c Hc.
    destruct (is_valid_code c) eqn:Hv; [reflexivity|].
    assert (Hin : In c (filter (fun c => negb (is_valid_code c)) codes))
      by (apply filter_In; split; [exact Hc | rewrite Hv; reflexivity]).
    rewrite Hnil in Hin. destruct Hin.
  - unfold valid, invalid. rewrite length_valid.
    clear. induction codes as [|c l IH]; [reflexivity|].
    cbn [filter]. destruct (is_valid_code c); cbn [negb length]; lia.
Qed.

Lemma invalid_entries_are_reported_witness :
  let content := jstr "{'ignore_codes': ['SC2034', 7, 'sc2154', 'SC', 'SC99']}" in
  _parse_and_validate_codes bare_host content []
  = (Ret [ustr "SC2034"; ustr "SC99"],
     [Print (LogWarnInvalidCodes
               [PyInt 7; PyStr (ustr "sc2154"); PyStr (ustr "SC")]);
      Print (LogLoadedCodes [ustr "SC2034"; ustr "SC99"])])
  /\ [PyInt 7; PyStr (ustr "sc2154"); PyStr (ustr "SC")] <> []
  /\ 2 + 3 = 5.
Proof.
  exact (@invalid_entries_are_reported bare_host
           (jstr "{'ignore_codes': ['SC2034', 7, 'sc2154', 'SC', 'SC99']}")
           [(ustr "ignore_codes",
             PyList [PyStr (ustr "SC2034"); PyInt 7; PyStr (ustr "sc2154");
                     PyStr (ustr "SC"); PyStr (ustr "SC99")])]
           [PyStr (ustr "SC2034"); PyInt 7; PyStr (ustr "sc2154");
            PyStr (ustr "SC"); PyStr (ustr "SC99")]
           [] eq_refl eq_refl eq_refl).
Defined.

Lemma dict_get_missing (key : pystr) (items : list (pystr * pyval))
  (default : pyval) :
  (forall k v, In (k, v) items -> k <> key) ->
  dict_get key items default = default.
Proof.
  revert default. induction items as [|[k v] items IH]; intros default Hk;
    [reflexivity|].
  cbn [dict_get].
  destruct (str_eqb k key) eqn:Heq.
  - apply str_eqb_eq in Heq. exfalso. apply (Hk k v); [left; reflexivity | exact Heq].
  - apply IH. intros k' v' Hin. apply (Hk k' v'). right. exact Hin.
Qed.

(** X8: a config object without the key [ignore_codes] is an empty
    config: the loader returns the empty sequence and logs nothing. *)
Theorem missing_key_is_empty_config (host : Host) (content : pystr)
  (items : list (pystr * pyval)) (t : trace) :
  json_loads (limits host) content = Ret (PyDict items) ->
  (forall k v, In (k, v) items -> k <> ustr "ignore_codes") ->
  _parse_and_validate_codes host content t = (Ret [], t).
Proof.
  intros Hj Hk.
  rewrite (@parse_array_run host content items [] t Hj
             (@dict_get_missing (ustr "ignore_codes") items (PyList []) Hk)).
  cbn. rewrite app_nil_r. reflexivity.
Qed.

Lemma missing_key_is_empty_config_witness :
  _parse_and_validate_codes bare_host (jstr "{'ignore': ['SC2034']}") []
  = (Ret [], []).
Proof.
  refine (@missing_key_is_empty_config bare_host
            (jstr "{'ignore': ['SC2034']}")
            [(ustr "ignore", PyList [PyStr (ustr "SC2034")])] [] eq_refl _).
  intros k v [H | []]. inversion H. discriminate.
Defined.

(** ** More on the command and on construction *)

Lemma ignore_flags_length (codes : list pystr) :
  length (ignore_flags codes) = 2 * length codes.
Proof.
  induction codes as [|c codes IH]; [reflexivity|].
  change (ignore_flags (c :: codes)) with (ustr "-e" :: c :: ignore_flags codes).
  cbn [length]. lia.
Qed.

Lemma ignore_flags_injective (a b : list pystr) :
  ignore_flags a = ignore_flags b -> a = b.
Proof.
  revert b. induction a as [|x a IH]; intros [|y b] H;
    try reflexivity; try discriminate H.
  change (ustr "-e" :: x :: ignore_flags a = ustr "-e" :: y :: ignore_flags b) in H.
  injection H as Hxy Hrest. subst y. f_equal. apply IH, Hrest.
Qed.

(** X9: a command has four tokens and two more for each ignored code,
    and it determines its inputs: two calls of the builder that give the
    same command had the same executable path and the same code
    sequence. *)
Theorem command_determines_inputs (path1 path2 : pystr)
  (codes1 codes2 : list pystr) (t1 t2 : trace) (cmd : list pystr) :
  fst (_build_cmd path1 codes1 t1) = Ret cmd ->
  fst (_build_cmd path2 codes2 t2) = Ret cmd ->
  length cmd = 4 + 2 * length codes1 /\ path1 = path2 /\ codes1 = codes2.
Proof.
  rewrite !build_cmd_run. cbn [fst]. intros H1 H2.
  injection H1 as <-.
  assert (Hcmd : [path2; ustr "-f"; ustr "gcc"; ustr "-"] ++ ignore_flags codes2
                 = [path1; ustr "-f"; ustr "gcc"; ustr "-"] ++ ignore_flags codes1)
    by (cbn [app] in *; congruence).
  split; [|split].
  - cbn [app length]. rewrite ignore_flags_length. reflexivity.
  - apply (f_equal (hd [])) in Hcmd. symmetry. exact Hcmd.
  - apply (f_equal (skipn 4)) in Hcmd. symmetry.
    apply ignore_flags_injective. exact Hcmd.
Qed.

Lemma command_determines_inputs_witness :
  length [ustr "/usr/bin/shellcheck"; ustr "-f"; ustr "gcc"; ustr "-";
          ustr "-e"; ustr "SC2034"]
  = 4 + 2 * length [ustr "SC2034"]
  /\ ustr "/usr/bin/shellcheck" = ustr "/usr/bin/shellcheck"
  /\ [ustr "SC2034"] = [ustr "SC2034"].
Proof.
  exact (@command_determines_inputs (ustr "/usr/bin/shellcheck")
           (ustr "/usr/bin/shellcheck") [ustr "SC2034"] [ustr "SC2034"]
           [] [Print LogErrNotArray]
           [ustr "/usr/bin/shellcheck"; ustr "-f"; ustr "gcc"; ustr "-";
            ustr "-e"; ustr "SC2034"] eq_refl eq_refl).
Defined.

Lemma log_status_run (codes : list pystr) (t : trace) :
  _log_status codes t
  = (Ret tt,
     t ++ Print (LogActive (length codes) (negb (Nat.eqb (length codes) 1)))
          :: match codes with
             | [] => []
             | _ => [Print (LogIgnoring (join (ustr ", ") codes))]
             end).
Proof.
  unfold _log_status, bind, print, emit, when, ret.
  destruct codes; [reflexivity|]. rewrite <- app_assoc. reflexivity.
Qed.

(** Every way a construction can go once the locator has returned. *)
Lemma init_run (host : Host) (t t1 : trace) (r : option pystr) :
  _find_executable host t = (Ret r, t1) ->
  __init__ host t
  = match r with
    | Some (c :: p) =>
        match _load_config host t1 with
        | (Ret codes, t2) =>
            let cmd := [c :: p; ustr "-f"; ustr "gcc"; ustr "-"]
                       ++ ignore_flags codes in
            (Ret {| shellcheck_path := r; ignore_codes := codes;
                    inst_executable := Some (c :: p); inst_cmd := Some cmd |},
             (t2 ++ [Print (LogCommand (join (ustr " ") cmd))])
             ++ Print (LogActive (length codes)
                         (negb (Nat.eqb (length codes) 1)))
                :: match codes with
                   | [] => []
                   | _ => [Print (LogIgnoring (join (ustr ", ") codes))]
                   end)
        | (Raise e, t2) => (Raise e, t2)
        end
    | _ => (Ret {| shellcheck_path := r; ignore_codes := [];
                   inst_executable := None; inst_cmd := None |}, t1)
    end.
Proof.
  intros Hl. unfold __init__, bind. rewrite Hl.
  destruct r as [[|c p]|]; cbn [truthy negb]; try reflexivity.
  destruct (_load_config host t1) as [[codes|e] t2]; [|reflexivity].
  rewrite build_cmd_run, log_status_run. reflexivity.
Qed.

Lemma init_needs_locator (host : Host) (t t' : trace) (self : ShellCheck) :
  __init__ host t = (Ret self, t') ->
  exists r t1, _find_executable host t = (Ret r, t1).
Proof.
  unfold __init__, bind.
  destruct (_find_executable host t) as [[r|e] t1]; [|discriminate].
  intros _. exists r, t1. reflexivity.
Qed.

Lemma load_config_valid (host : Host) (t t' : trace) (codes : list pystr) :
  _load_config host t = (Ret codes, t') ->
  Forall (fun s => is_valid_code (PyStr s) = true) codes.
Proof.
  intros H. unfold _load_config in H.
  destruct (path_isfile host (config_path host));
    cbn [negb] in H; [|inversion H; constructor].
  unfold bind in H.
  destruct (read_config_outcome host (config_path host) t)
    as (r & t1 & Hr & _).
  rewrite Hr in H.
  destruct (truthy r); cbn [negb] in H; [|inversion H; constructor].
  eapply parse_result_valid. exact H.
Qed.

(** X10: in every instance a construction gives, enabled or disabled,
    the command starts with the executable the instance shows, goes on
    with [-f gcc -], and ends with one [-e] pair per ignore code of the
    instance; every ignore code passes the check of the loader, and an
    instance without a usable executable path has none. *)
Theorem instance_is_consistent (host : Host) (t t' : trace)
  (self : ShellCheck) :
  __init__ host t = (Ret self, t') ->
  get_cmd self
  = [get_executable self; ustr "-f"; ustr "gcc"; ustr "-"]
    ++ flat_map (fun code => [ustr "-e"; code]) (ignore_codes self)
  /\ Forall (fun s => is_valid_code (PyStr s) = true) (ignore_codes self)
  /\ (truthy (shellcheck_path self) = false -> ignore_codes self = [])
  /\ (truthy (shellcheck_path self) = true ->
      shellcheck_path self = Some (get_executable self)).
Proof.
  intros H.
  destruct (init_needs_locator _ _ H) as (r & t1 & Hl).
  rewrite (init_run _ _ Hl) in H.
  destruct r as [[|c p]|].
  - inversion H; subst. cbn. repeat split; auto; discriminate.
  - destruct (_load_config host t1) as [[codes|e] t2] eqn:Hc; [|discriminate].
    inversion H; subst. cbn.
    split; [reflexivity|]. split; [eapply load_config_valid; exact Hc|].
    split; [discriminate | reflexivity].
  - inversion H; subst. cbn. repeat split; auto; discriminate.
Qed.

Lemma instance_is_consistent_witness :
  let self := {| shellcheck_path := Some (ustr "/usr/bin/shellcheck");
                 ignore_codes := [ustr "SC2034"; ustr "SC99"];
                 inst_executable := Some (ustr "/usr/bin/shellcheck");
                 inst_cmd := Some [ustr "/usr/bin/shellcheck"; ustr "-f";
                                   ustr "gcc"; ustr "-"; ustr "-e";
                                   ustr "SC2034"; ustr "-e"; ustr "SC99"] |} in
  get_cmd self
  = [get_executable self; ustr "-f"; ustr "gcc"; ustr "-"]
    ++ flat_map (fun code => [ustr "-e"; code]) (ignore_codes self)
  /\ Forall (fun s => is_valid_code (PyStr s) = true) (ignore_codes self)
  /\ (truthy (shellcheck_path self) = false -> ignore_codes self = [])
  /\ (truthy (shellcheck_path self) = true ->
      shellcheck_path self = Some (get_executable self)).
Proof.
  exact (@instance_is_consistent (installed_host commented_config) []
           [Print (LogFoundInPath (ustr "/usr/bin/shellcheck"));
            Print (LogWarnInvalidCodes [PyStr (ustr "sc2154")]);
            Print (LogLoadedCodes [ustr "SC2034"; ustr "SC99"]);
            Print (LogCommand
                     (ustr "/usr/bin/shellcheck -f gcc - -e SC2034 -e SC99"));
            Print (LogActive 2 true);
            Print (LogIgnoring (ustr "SC2034, SC99"))]
           {| shellcheck_path := Some (ustr "/usr/bin/shellcheck");
              ignore_codes := [ustr "SC2034"; ustr "SC99"];
              inst_executable := Some (ustr "/usr/bin/shellcheck");
              inst_cmd := Some [ustr "/usr/bin/shellcheck"; ustr "-f";
                                ustr "gcc"; ustr "-"; ustr "-e";
                                ustr "SC2034"; ustr "-e"; ustr "SC99"] |}
           eq_refl).
Defined.

Lemma locator_raises (host : Host) (t t' : trace) (e : exn_class) :
  _find_executable host t = (Raise e, t') ->
  t' = t /\
  truthy (shutil_which host (ustr "shellcheck")) = false /\
  except_matches [NameError; AttributeError] e = false /\
  (module_file host = Raise e \/
   (e = TypeError /\ exists v, module_file host = Ret v /\
                               forall s, v <> PyStr s)).
Proof.
  unfold _find_executable.
  destruct (truthy (shutil_which host (ustr "shellcheck"))).
  - unfold bind, print, emit, ret. discriminate.
  - unfold try_except.
    destruct (bundled_lookup host t) as [[r|e0] t1] eqn:Hb; [discriminate|].
    cbn [handle].
    destruct (except_matches [NameError; AttributeError] e0) eqn:He.
    + unfold bind, print, emit, ret. discriminate.
    + unfold raise. intros H. inversion H; subst.
      apply bundled_lookup_raises in Hb. destruct Hb as [-> Hb].
      repeat split; assumption.
Qed.

(** X11: a construction raises in two situations only.  Either nothing
    is on the search path and locating the bundled copy raises something
    other than [NameError] or [AttributeError]: what the lookup of
    [__file__] raised, or [TypeError] when [__file__] is not a string.  Or
    an executable was found and [json.loads] raises something other than
    [JSONDecodeError] on the stripped config text. *)
Theorem construction_raises_only (host : Host) (t t' : trace)
  (e : exn_class) :
  __init__ host t = (Raise e, t') ->
  (truthy (shutil_which host (ustr "shellcheck")) = false /\
   except_matches [NameError; AttributeError] e = false /\
   (module_file host = Raise e \/
    (e = TypeError /\ exists v, module_file host = Ret v /\
                                forall s, v <> PyStr s))) \/
  (exists p t1 content,
     _find_executable host t = (Ret (Some p), t1) /\
     _read_config_file host (config_path host) t1 = (Ret (Some content), t1) /\
     json_loads (limits host) content = Raise e /\
     isinstance_exn e JSONDecodeError = false).
Proof.
  intros H.
  destruct (_find_executable host t) as [[r|e0] t1] eqn:Hl.
  - rewrite (init_run _ _ Hl) in H.
    destruct r as [[|c p]|]; try discriminate H.
    destruct (_load_config host t1) as [[codes|e1] t2] eqn:Hc; [discriminate H|].
    inversion H; subst. right.
    unfold _load_config in Hc.
    destruct (path_isfile host (config_path host)); cbn [negb] in Hc;
      [|discriminate Hc].
    unfold bind in Hc.
    destruct (read_config_outcome host (config_path host) t1)
      as (rc & t3 & Hr & Hshape).
    rewrite Hr in Hc.
    destruct rc as [[|x content]|]; cbn [truthy negb] in Hc; try discriminate Hc.
    destruct Hshape as [-> _].
    apply parse_raises in Hc. destruct Hc as (_ & Hj & He).
    exists (c :: p), t1, (x :: content). repeat split; assumption.
  - unfold __init__, bind in H. rewrite Hl in H. inversion H; subst.
    left. apply locator_raises in Hl. destruct Hl as (_ & Hw & He & Hm).
    repeat split; assumption.
Qed.

Lemma construction_raises_only_witness :
  (truthy (shutil_which fileless_host (ustr "shellcheck")) = false /\
   except_matches [NameError; AttributeError] TypeError = false /\
   (module_file fileless_host = Raise TypeError \/
    (TypeError = TypeError /\
     exists v, module_file fileless_host = Ret v /\ forall s, v <> PyStr s))) \/
  (exists p t1 content,
     _find_executable fileless_host [] = (Ret (Some p), t1) /\
     _read_config_file fileless_host (config_path fileless_host) t1
     = (Ret (Some content), t1) /\
     json_loads (limits fileless_host) content = Raise TypeError /\
     isinstance_exn TypeError JSONDecodeError = false).
Proof.
  exact (@construction_raises_only fileless_host [] [] TypeError eq_refl).
Defined.

Lemma parse_logs_no_command (host : Host) (content : pystr) (t : trace) :
  commands_logged (snd (_parse_and_validate_codes host content t))
  = commands_logged t.
Proof.
  destruct (json_loads (limits host) content) as [v|e] eqn:Hj.
  - destruct v as [| | | | | |items];
      try (rewrite (@parse_not_object host content _ t Hj)
             by (intros ?; discriminate);
           cbn [snd]; apply commands_logged_other; reflexivity).
    destruct (dict_get (ustr "ignore_codes") items (PyList [])) as [| | | | |l|]
      eqn:Hd;
      try (rewrite (@parse_not_array host content items t Hj)
             by (intros ?; rewrite Hd; discriminate);
           cbn [snd]; apply commands_logged_other; reflexivity).
    rewrite (@parse_array_run host content items l t Hj Hd). cbn [snd].
    rewrite !commands_logged_app.
    destruct (forallb is_valid_code l);
      destruct (strings_of (filter is_valid_code l)); cbn; lia.
  - unfold _parse_and_validate_codes, try_except, bind, lift.
    rewrite Hj. cbn [handle].
    destruct (except_matches [JSONDecodeError] e); [|reflexivity].
    unfold print, emit, ret. cbn [snd]. apply commands_logged_other. reflexivity.
Qed.

Lemma load_config_logs_no_command (host : Host) (t : trace) :
  commands_logged (snd (_load_config host t)) = commands_logged t.
Proof.
  unfold _load_config.
  destruct (path_isfile host (config_path host)); cbn [negb]; [|reflexivity].
  unfold bind.
  destruct (read_config_outcome host (config_path host) t)
    as (r & t1 & Hr & Hshape).
  rewrite Hr.
  assert (Ht1 : commands_logged t1 = commands_logged t).
  { destruct r as [content|].
    - destruct Hshape as [-> _]. reflexivity.
    - destruct Hshape as (e & [[-> _] | [-> _]]);
        apply commands_logged_other; reflexivity. }
  destruct (truthy r); cbn [negb snd]; [|exact Ht1].
  rewrite parse_logs_no_command. exact Ht1.
Qed.

(** X12: a construction that finds an executable and completes builds
    the command once, and its log ends with that command, as the tokens
    of the instance joined by spaces, followed by the status: the number
    of ignore codes of the instance, in the plural unless it is one, and
    the codes themselves when there are any. *)
Theorem enabled_construction_log (host : Host) (t t' : trace)
  (self : ShellCheck) :
  __init__ host t = (Ret self, t') ->
  truthy (shellcheck_path self) = true ->
  let n := length (ignore_codes self) in
  commands_logged t' = S (commands_logged t) /\
  exists before,
    t' = before
         ++ [Print (LogCommand (join (ustr " ") (get_cmd self)));
             Print (LogActive n (negb (Nat.eqb n 1)))]
         ++ match ignore_codes self with
            | [] => []
            | _ => [Print (LogIgnoring (join (ustr ", ") (ignore_codes self)))]
            end.
Proof.
  intros H Hp n.
  destruct (init_needs_locator _ _ H) as (r & t1 & Hl).
  rewrite (init_run _ _ Hl) in H.
  pose proof (locator_logs_no_command host t) as Hc1. rewrite Hl in Hc1.
  cbn [snd] in Hc1.
  destruct r as [[|c p]|]; try (inversion H; subst; discriminate Hp).
  pose proof (load_config_logs_no_command host t1) as Hc2.
  destruct (_load_config host t1) as [[codes|e] t2]; [|discriminate H].
  cbn [snd] in Hc2. inversion H; subst. cbn [ignore_codes get_cmd inst_cmd].
  split.
  - rewrite !commands_logged_app.
    assert (Htail : commands_logged
              (Print (LogActive (length codes) (negb (Nat.eqb (length codes) 1)))
               :: match codes with
                  | [] => []
                  | _ :: _ => [Print (LogIgnoring (join (ustr ", ") codes))]
                  end) = 0) by (destruct codes; reflexivity).
    rewrite Htail.
    change (commands_logged [Print (LogCommand _)]) with 1. lia.
  - exists t2. unfold n. cbn [ignore_codes].
    rewrite <- app_assoc. reflexivity.
Qed.

Lemma enabled_construction_log_witness :
  let self := {| shellcheck_path := Some (ustr "/usr/bin/shellcheck");
                 ignore_codes := [ustr "SC2034"; ustr "SC99"];
                 inst_executable := Some (ustr "/usr/bin/shellcheck");
                 inst_cmd := Some [ustr "/usr/bin/shellcheck"; ustr "-f";
                                   ustr "gcc"; ustr "-"; ustr "-e";
                                   ustr "SC2034"; ustr "-e"; ustr "SC99"] |} in
  let t' := [Print (LogFoundInPath (ustr "/usr/bin/shellcheck"));
             Print (LogWarnInvalidCodes [PyStr (ustr "sc2154")]);
             Print (LogLoadedCodes [ustr "SC2034"; ustr "SC99"]);
             Print (LogCommand
                      (ustr "/usr/bin/shellcheck -f gcc - -e SC2034 -e SC99"));
             Print (LogActive 2 true);
             Print (LogIgnoring (ustr "SC2034, SC99"))] in
  commands_logged t' = S (commands_logged []) /\
  exists before,
    t' = before
         ++ [Print (LogCommand (join (ustr " ") (get_cmd self)));
             Print (LogActive 2 (negb (Nat.eqb 2 1)))]
         ++ match ignore_codes self with
            | [] => []
            | _ => [Print (LogIgnoring (join (ustr ", ") (ignore_codes self)))]
            end.
Proof.
  exact (@enabled_construction_log (installed_host commented_config) [] _ _
           eq_refl eq_refl).
Defined.

(** ** More on the comment filter *)

Lemma lines_from_one (body cur : pystr) :
  ~ In 10%N body ->
  lines_from cur (body ++ [10%N]) = [rev cur ++ body ++ [10%N]].
Proof.
  revert cur. induction body as [|c body IH]; intros cur Hno.
  - cbn. reflexivity.
  - cbn [app lines_from].
    destruct (N.eqb c 10) eqn:Hc.
    + apply N.eqb_eq in Hc. exfalso. apply Hno. left. exact Hc.
    + rewrite IH by (intros H; apply Hno; right; exact H).
      cbn [rev]. rewrite <- app_assoc. reflexivity.
Qed.

Lemma lines_from_after_lf (a b cur : pystr) :
  lines_from cur (a ++ [10%N] ++ b)
  = lines_from cur (a ++ [10%N]) ++ lines_from [] b.
Proof.
  revert cur. induction a as [|c a IH]; intros cur.
  - cbn. reflexivity.
  - cbn [app lines_from]. destruct (N.eqb c 10).
    + cbn [app] in IH. rewrite IH. reflexivity.
    + cbn [app] in IH. rewrite IH. reflexivity.
Qed.

Lemma file_lines_app (a b : pystr) :
  whole_lines a -> file_lines (a ++ b) = file_lines a ++ file_lines b.
Proof.
  intros [-> | (body & ->)]; [reflexivity|].
  unfold file_lines. rewrite <- app_assoc. apply lines_from_after_lf.
Qed.

(** X13: a whole line that the filter drops, a comment or a blank line,
    can be put between the lines of a config, or taken out, without
    changing the text the JSON parser gets. *)
Theorem dropped_line_changes_nothing (above below ln : pystr) :
  whole_lines above -> one_line ln -> keep_line ln = false ->
  strip_comments (above ++ ln ++ below) = strip_comments (above ++ below).
Proof.
  intros Ha (body & -> & Hno) Hk. unfold strip_comments.
  rewrite (@file_lines_app above ((body ++ [10%N]) ++ below) Ha).
  rewrite (@file_lines_app above below Ha).
  rewrite (@file_lines_app (body ++ [10%N]) below)
    by (right; exists body; reflexivity).
  assert (Hone : file_lines (body ++ [10%N]) = [body ++ [10%N]])
    by (unfold file_lines; rewrite lines_from_one by exact Hno; reflexivity).
  rewrite Hone, !filter_app. cbn [filter]. rewrite Hk. reflexivity.
Qed.

Lemma dropped_line_changes_nothing_witness :
  strip_comments
    ((jstr "{'ignore_codes': [" ++ [10%N])
     ++ (ustr "   # quoting is checked elsewhere" ++ [10%N])
     ++ jstr "'SC2086']}")
  = strip_comments
      ((jstr "{'ignore_codes': [" ++ [10%N]) ++ jstr "'SC2086']}").
Proof.
  refine (@dropped_line_changes_nothing
            (jstr "{'ignore_codes': [" ++ [10%N])
            (jstr "'SC2086']}")
            (ustr "   # quoting is checked elsewhere" ++ [10%N]) _ _ eq_refl).
  - right. eexists. reflexivity.
  - eexists. split; [reflexivity|].
    vm_compute. intros H. repeat (destruct H as [H|H]; [discriminate H|]).
    exact H.
Defined.

Lemma lines_before_last_end_with_lf (s : pystr) :
  forall cur pre ln post,
    lines_from cur s = pre ++ ln :: post -> post <> [] ->
    exists body, ln = body ++ [10%N].
Proof.
  induction s as [|c r IH]; intros cur pre ln post H Hpost.
  - cbn [lines_from] in H. destruct cur as [|c cur].
    + destruct pre; discriminate H.
    + destruct pre as [|x pre].
      * injection H as _ H. symmetry in H. contradiction.
      * injection H as _ H. destruct pre; discriminate H.
  - cbn [lines_from] in H. destruct (N.eqb c 10) eqn:Hc.
    + apply N.eqb_eq in Hc. subst c.
      destruct pre as [|x pre].
      * injection H as <- _. exists (rev cur). reflexivity.
      * injection H as _ H. eapply IH; eassumption.
    + eapply IH; eassumption.
Qed.

Lemma filter_before_last {A : Type} (f : A -> bool) (P : A -> Prop)
  (l : list A) :
  (forall pre x post, l = pre ++ x :: post -> post <> [] -> P x) ->
  forall pre x post, filter f l = pre ++ x :: post -> post <> [] -> P x.
Proof.
  induction l as [|y l IH]; intros Hl pre x post H Hpost.
  - destruct pre; discriminate H.
  - assert (Hl' : forall pre x post, l = pre ++ x :: post -> post <> [] -> P x).
    { intros pre' x' post' -> Hp. apply (Hl (y :: pre') x' post'); [reflexivity | exact Hp]. }
    cbn [filter] in H. destruct (f y).
    + destruct pre as [|z pre].
      * injection H as <- Hrest.
        apply (Hl [] y l); [reflexivity|].
        intros ->. cbn in Hrest. congruence.
      * injection H as _ H. eapply IH; eassumption.
    + eapply IH; eassumption.
Qed.

(** X14: every line the filter keeps, except the last one, still ends
    with its line feed when the lines are joined: the content of two
    lines is never run together. *)
Theorem kept_lines_stay_apart (text : pystr) (pre post : list pystr)
  (ln : pystr) :
  filter keep_line (file_lines text) = pre ++ ln :: post ->
  post <> [] ->
  exists body, ln = body ++ [10%N].
Proof.
  apply (@filter_before_last _ keep_line
           (fun ln => exists body, ln = body ++ [10%N])).
  intros pre' x post' H Hp.
  eapply lines_before_last_end_with_lf; eassumption.
Qed.

Lemma kept_lines_stay_apart_witness :
  exists body, jstr "{'ignore_codes': [" ++ [10%N] = body ++ [10%N].
Proof.
  refine (@kept_lines_stay_apart
            ((jstr "{'ignore_codes': [" ++ [10%N])
             ++ (ustr "# comment" ++ [10%N]) ++ jstr "'SC2086']}")
            [] [jstr "'SC2086']}"] (jstr "{'ignore_codes': [" ++ [10%N])
            eq_refl _).
  discriminate.
Defined.

(** X15: on a text in which no line is blank or a comment, the filter
    only trims the ends. *)
Theorem plain_text_is_only_trimmed (text : pystr) :
  forallb keep_line (file_lines text) = true ->
  strip_comments text = strip text.
Proof.
  intros H. unfold strip_comments.
  rewrite (filter_id _ _ H), join_empty_concat, file_lines_concat.
  reflexivity.
Qed.

Lemma plain_text_is_only_trimmed_witness :
  strip_comments (jstr "  {'ignore_codes':" ++ [10%N] ++ jstr " ['SC1'] } " ++ [10%N])
  = strip (jstr "  {'ignore_codes':" ++ [10%N] ++ jstr " ['SC1'] } " ++ [10%N]).
Proof.
  exact (@plain_text_is_only_trimmed
           (jstr "  {'ignore_codes':" ++ [10%N] ++ jstr " ['SC1'] } " ++ [10%N])
           eq_refl).
Defined.

(** ** More on the temp-file suffix *)

Lemma rfind_absent (c : N) (s : pystr) : ~ In c s -> rfind c s = (-1)%Z.
Proof.
  intros Hno. destruct (rfind_spec c s) as [[H _] | (Hr & Hn & _)]; [exact H|].
  exfalso. apply Hno. rewrite <- Hn. apply nth_In. lia.
Qed.

Lemma rfind_lower (c : N) (s : pystr) : (-1 <= rfind c s)%Z.
Proof. destruct (rfind_spec c s) as [[-> _] | [? _]]; lia. Qed.

(** X16: the suffix the override passes on is never empty and always
    begins with a dot; a file name without any dot gets [.sh]. *)
Theorem tmpfile_suffix_has_dot (host : Host) (filename : pystr)
  (cmd : list pystr) (code suffix : pystr) :
  (exists rest,
     tmpfile host (fun _ _ chosen => chosen) filename cmd code suffix
     = 46%N :: rest) /\
  (~ In 46%N filename ->
   tmpfile host (fun _ _ chosen => chosen) filename cmd code suffix
   = ustr ".sh").
Proof.
  unfold tmpfile. split.
  - destruct (splitext_extension (path_sep host) (path_altsep host) filename)
      as [_ [Hnil | (rest & Hext & _)]].
    + rewrite Hnil. eexists. reflexivity.
    + rewrite Hext. eexists. reflexivity.
  - intros Hno. unfold splitext. rewrite (rfind_absent _ _ Hno).
    match goal with
    | |- context [Z.ltb ?a (-1)] =>
        assert (Hlt : Z.ltb a (-1) = false)
    end.
    { apply Z.ltb_ge. destruct (path_altsep host);
        pose proof (rfind_lower (path_sep host) filename); lia. }
    rewrite Hlt. reflexivity.
Qed.

Lemma tmpfile_suffix_has_dot_witness :
  (exists rest,
     tmpfile bare_host (fun _ _ chosen => chosen) (ustr "/srv/www.d/Makefile")
       class_cmd [] []
     = 46%N :: rest) /\
  tmpfile bare_host (fun _ _ chosen => chosen) (ustr "Makefile") class_cmd [] []
  = ustr ".sh".
Proof.
  split.
  - exact (proj1 (@tmpfile_suffix_has_dot bare_host (ustr "/srv/www.d/Makefile")
                    class_cmd [] [])).
  - refine (proj2 (@tmpfile_suffix_has_dot bare_host (ustr "Makefile")
                     class_cmd [] []) _).
    vm_compute. intros H. repeat (destruct H as [H|H]; [discriminate H|]).
    exact H.
Defined.

(** ** More on the config action *)

(** Every way [Command.config] can end. *)
Lemma config_outcome (host : Host) (t : trace) :
  let path := config_path host in
  let dir := path_dirname host path in
  exists added,
    config host t = (Ret tt, t ++ added) /\
    (added = [FileOpen path; Print (LogOpenedConfig path)] \/
     added = [MakeDirs dir; CreateFile path; WriteFile path default_document;
              Print (LogCreatedDefault path);
              FileOpen path; Print (LogOpenedConfig path)] \/
     exists e done,
       added = done ++ [MsgBoxCreateFailed e [MB_OK; MB_ICONERROR];
                        Print (LogErrCreateFailed e)] /\
       (done = [] \/ done = [MakeDirs dir]
        \/ done = [MakeDirs dir; CreateFile path])).
Proof.
  intros path dir. unfold config, create_default. fold path. fold dir.
  rewrite default_config_text.
  destruct (path_isfile host path); cbn [negb].
  - eexists. split; [|left; reflexivity].
    unfold bind, print, emit, ret. rewrite <- app_assoc. reflexivity.
  - unfold try_except, bind.
    destruct (makedirs_failure host dir) as [e|].
    { eexists. split; [|right; right; exists e, []; split; [reflexivity | auto]].
      unfold attempt, raise, print, emit, ret. cbn [handle].
      unfold except_matches. cbn [existsb]. rewrite all_are_exceptions.
      cbn [orb app]. rewrite <- app_assoc. reflexivity. }
    destruct (create_failure host path) as [e|].
    { eexists. split;
        [|right; right; exists e, [MakeDirs dir]; split; [reflexivity | auto]].
      unfold attempt, raise, print, emit, ret. cbn [handle].
      unfold except_matches. cbn [existsb]. rewrite all_are_exceptions.
      cbn [orb app]. repeat rewrite <- app_assoc. reflexivity. }
    destruct (write_failure host path default_document) as [e|].
    { eexists. split;
        [|right; right; exists e, [MakeDirs dir; CreateFile path];
          split; [reflexivity | auto]].
      unfold attempt, raise, print, emit, ret. cbn [handle].
      unfold except_matches. cbn [existsb]. rewrite all_are_exceptions.
      cbn [orb app]. repeat rewrite <- app_assoc. reflexivity. }
    eexists. split; [|right; left; reflexivity].
    unfold attempt, print, emit, ret. cbn [negb].
    repeat rewrite <- app_assoc. reflexivity.
Qed.

(** X17: the config action never raises, on any host: it ends either
    with one request to open the file or with one error dialog, never
    with both and never with neither. *)
Theorem config_never_raises (host : Host) (t : trace) :
  exists added,
    config host t = (Ret tt, t ++ added) /\
    file_open_requests added + dialogs added = 1.
Proof.
  destruct (config_outcome host t) as (added & Hrun & Hcase).
  exists added. split; [exact Hrun|].
  destruct Hcase as [-> | [-> | (e & done & -> & [-> | [-> | ->]])]];
    reflexivity.
Qed.

Lemma default_document_is_plain :
  strip_comments default_document = default_document.
Proof. vm_compute. reflexivity. Qed.

Lemma default_document_decodes (lim : json_limits) :
  2 <= recursion_budget lim ->
  json_loads lim default_document = Ret DEFAULT_CONFIG.
Proof.
  destruct lim as [budget digits]. cbn [recursion_budget]. intros Hb.
  destruct budget as [|[|budget]]; [lia | lia |].
  vm_compute. reflexivity.
Qed.

Lemma default_codes_pass :
  forallb is_valid_code
    [PyStr (ustr "SC2034"); PyStr (ustr "SC2154"); PyStr (ustr "SC2086")] = true
  /\ strings_of
       (filter is_valid_code
          [PyStr (ustr "SC2034"); PyStr (ustr "SC2154"); PyStr (ustr "SC2086")])
     = [ustr "SC2034"; ustr "SC2154"; ustr "SC2086"].
Proof. split; vm_compute; reflexivity. Qed.

Lemma config_writes_default (host : Host) (path text : pystr) :
  In (WriteFile path text) (snd (config host [])) -> text = default_document.
Proof.
  intros Hw.
  destruct (config_outcome host []) as (added & Hrun & Hcase).
  rewrite Hrun in Hw. cbn [snd app] in Hw.
  destruct Hcase as [-> | [-> | (e & done & -> & [-> | [-> | ->]])]];
    cbn [app In] in Hw;
    repeat (destruct Hw as [Hw | Hw]; [try discriminate Hw|]);
    try contradiction.
  injection Hw as _ <-. reflexivity.
Qed.

(** X18: what the action writes, the loader accepts whole.  When the
    config file of a host holds the text an earlier run of the action
    wrote, and the interpreter has two recursion levels free, the loader
    returns the three default codes and logs them as loaded, with no
    warning about invalid codes. *)
Theorem written_config_loads (writer reader : Host) (path text : pystr)
  (t : trace) :
  In (WriteFile path text) (snd (config writer [])) ->
  path_isfile reader (config_path reader) = true ->
  config_file_reads reader text ->
  2 <= recursion_budget (limits reader) ->
  _load_config reader t
  = (Ret [ustr "SC2034"; ustr "SC2154"; ustr "SC2086"],
     t ++ [Print (LogLoadedCodes
                    [ustr "SC2034"; ustr "SC2154"; ustr "SC2086"])]).
Proof.
  intros Hw Hf Hr Hb.
  apply config_writes_default in Hw. subst text.
  rewrite (@load_config_content reader (strip_comments default_document) t Hf
             (@read_config_text reader default_document t Hr)).
  rewrite default_document_is_plain.
  pose proof (default_document_decodes (limits reader) Hb) as Hj.
  assert (Hd : dict_get (ustr "ignore_codes")
                 [(ustr "ignore_codes",
                   PyList [PyStr (ustr "SC2034"); PyStr (ustr "SC2154");
                           PyStr (ustr "SC2086")])] (PyList [])
               = PyList [PyStr (ustr "SC2034"); PyStr (ustr "SC2154");
                         PyStr (ustr "SC2086")])
    by (vm_compute; reflexivity).
  assert (Hne : default_document <> []) by (vm_compute; discriminate).
  destruct default_document as [|c0 doc] eqn:Edoc; [congruence|].
  rewrite (@parse_array_run reader (c0 :: doc) _ _ t Hj Hd).
  destruct default_codes_pass as [-> ->]. reflexivity.
Qed.

Lemma written_config_loads_witness :
  _load_config (installed_host default_document) []
  = (Ret [ustr "SC2034"; ustr "SC2154"; ustr "SC2086"],
     [] ++ [Print (LogLoadedCodes
                     [ustr "SC2034"; ustr "SC2154"; ustr "SC2086"])]).
Proof.
  refine (@written_config_loads bare_host (installed_host default_document)
            settings_file default_document [] _ eq_refl (or_introl eq_refl) _).
  - vm_compute. right. right. left. reflexivity.
  - vm_compute. repeat constructor.
Defined.

(** ** The diagnostic pattern *)

Lemma startswith_split (w s : pystr) :
  startswith w s = true -> s = w ++ skipn (length w) s.
Proof.
  revert s. induction w as [|x w IH]; intros s H; [reflexivity|].
  destruct s as [|y s]; [discriminate H|].
  cbn [startswith] in H. apply andb_prop in H. destruct H as [Hx Hw].
  apply N.eqb_eq in Hx. subst y. cbn [length skipn app]. f_equal. apply IH, Hw.
Qed.

Lemma startswith_app (w s : pystr) : startswith w (w ++ s) = true.
Proof.
  induction w as [|x w IH]; [reflexivity|].
  cbn [app startswith]. rewrite N.eqb_refl, IH. reflexivity.
Qed.

Lemma skipn_app_exact {A : Type} (a b : list A) : skipn (length a) (a ++ b) = b.
Proof. induction a as [|x a IH]; [reflexivity | exact IH]. Qed.

Lemma firstn_consumed {A : Type} (pos : nat) (a b : list A) :
  firstn (pos + length a - pos) (a ++ b) = a.
Proof.
  replace (pos + length a - pos) with (length a) by lia.
  induction a as [|x a IH]; [reflexivity|]. cbn [length firstn app]. f_equal. exact IH.
Qed.

(** When [p+] fails, the rest of the pattern fails after every run of
    matching characters. *)
Lemma many1_none {R : Type} (p : N -> bool) (s : pystr) :
  forall pos (k : nat -> pystr -> option R),
    many1 p pos s k = None ->
    forall a b, s = a ++ b -> a <> [] -> forallb p a = true ->
                k (pos + length a) b = None.
Proof.
  induction s as [|x s IH]; intros pos k H a b Hs Ha Hp.
  - destruct a; [congruence | discriminate Hs].
  - destruct a as [|y a]; [congruence|].
    cbn [app] in Hs. injection Hs as <- Hs.
    cbn [forallb] in Hp. apply andb_prop in Hp. destruct Hp as [Hx Hp].
    cbn [many1] in H. rewrite Hx in H.
    destruct (many1 p (S pos) s k) eqn:Hm; [discriminate H|].
    cbn [length]. rewrite Nat.add_succ_r.
    destruct a as [|z a].
    + cbn [app] in Hs. subst b. rewrite Nat.add_0_r. exact H.
    + apply (IH (S pos) k Hm (z :: a) b Hs); [discriminate | exact Hp].
Qed.

(** When [p+] succeeds, it is with the longest run of matching
    characters after which the rest of the pattern matches. *)
Lemma many1_sound {R : Type} (p : N -> bool) (s : pystr) :
  forall pos (k : nat -> pystr -> option R) (m : R),
    many1 p pos s k = Some m ->
    exists a b,
      s = a ++ b /\ a <> [] /\ forallb p a = true /\
      k (pos + length a) b = Some m /\
      forall a' b', s = a' ++ b' -> forallb p a' = true ->
                    length a < length a' -> k (pos + length a') b' = None.
Proof.
  induction s as [|x s IH]; intros pos k m H; [discriminate H|].
  cbn [many1] in H. destruct (p x) eqn:Hx; [|discriminate H].
  destruct (many1 p (S pos) s k) as [r|] eqn:Hm.
  - injection H as ->.
    destruct (IH (S pos) k m Hm) as (a & b & Hs & Ha & Hp & Hk & Hmax).
    exists (x :: a), b. subst s.
    split; [reflexivity|]. split; [discriminate|].
    split; [cbn [forallb]; rewrite Hx, Hp; reflexivity|].
    split; [cbn [length]; rewrite Nat.add_succ_r; exact Hk|].
    intros a' b' Hs' Hp' Hlen.
    destruct a' as [|y a']; [cbn [length] in Hlen; lia|].
    cbn [app] in Hs'. injection Hs' as <- Hs'.
    cbn [forallb] in Hp'. apply andb_prop in Hp'. destruct Hp' as [_ Hp'].
    cbn [length] in *. rewrite Nat.add_succ_r.
    apply Hmax; [exact Hs' | exact Hp' | lia].
  - exists [x], s.
    split; [reflexivity|]. split; [discriminate|].
    split; [cbn [forallb]; rewrite Hx; reflexivity|].
    split; [cbn [length]; rewrite Nat.add_succ_r, Nat.add_0_r; exact H|].
    intros a' b' Hs' Hp' Hlen.
    destruct a' as [|y [|z a']]; cbn [length] in Hlen; try lia.
    cbn [app] in Hs'. injection Hs' as <- Hs'.
    cbn [forallb] in Hp'. apply andb_prop in Hp'. destruct Hp' as [_ Hp'].
    change (length (x :: z :: a')) with (S (length (z :: a'))).
    rewrite Nat.add_succ_r.
    apply (@many1_none _ p s (S pos) k Hm (z :: a') b' Hs');
      [discriminate | exact Hp'].
Qed.

(** A run that cannot go on is taken whole when the rest of the pattern
    matches after it. *)
Lemma many1_exact {R : Type} (p : N -> bool) (a b : pystr) :
  forall pos (k : nat -> pystr -> option R) (m : R),
    a <> [] -> forallb p a = true ->
    match b with
    | [] => True
    | y :: _ => p y = false
    end ->
    k (pos + length a) b = Some m ->
    many1 p pos (a ++ b) k = Some m.
Proof.
  induction a as [|x a IH]; intros pos k m Ha Hp Hb Hk; [congruence|].
  cbn [forallb] in Hp. apply andb_prop in Hp. destruct Hp as [Hx Hp].
  cbn [app many1]. rewrite Hx.
  cbn [length] in Hk. rewrite Nat.add_succ_r in Hk.
  destruct a as [|z a].
  - cbn [app length] in *. rewrite Nat.add_0_r in Hk.
    destruct b as [|y b]; [cbn [many1]; exact Hk|].
    cbn [many1]. rewrite Hb. exact Hk.
  - rewrite (IH (S pos) k m); [reflexivity | discriminate | exact Hp | exact Hb | exact Hk].
Qed.

Lemma run_lit (w : pystr) :
  forall pos s c k,
    run (lit w) pos s c k
    = if startswith w s then k (pos + length w) (skipn (length w) s) c
      else None.
Proof.
  induction w as [|x w IH]; intros pos s c k.
  - cbn. rewrite Nat.add_0_r. reflexivity.
  - cbn [lit run]. destruct s as [|y s]; [reflexivity|].
    cbn [class_has startswith length skipn].
    rewrite (N.eqb_sym y x). destruct (N.eqb x y); [|reflexivity].
    rewrite IH, Nat.add_succ_r. reflexivity.
Qed.

Lemma number_field_sound (g : group_name) (pos : nat) (s : pystr)
  (c : captures) (k : nat -> pystr -> captures -> option captures)
  (m : captures) :
  run (number_field g) pos s c k = Some m ->
  exists n rest pos',
    s = ustr ":" ++ n ++ rest /\ run_of DigitChar n /\
    k pos' rest (set_group g n c) = Some m.
Proof.
  unfold number_field. cbn [run]. rewrite run_lit.
  destruct (startswith (ustr ":") s) eqn:Hc; [|discriminate].
  apply startswith_split in Hc.
  intros H. apply many1_sound in H.
  destruct H as (n & rest & Hs & Hn & Hp & Hk & _).
  exists n, rest. eexists.
  split; [rewrite Hc, Hs at 1; reflexivity|].
  split; [split; assumption|].
  rewrite Hs in Hk. rewrite firstn_consumed in Hk. exact Hk.
Qed.

Lemma number_field_exact (g : group_name) (pos : nat) (n rest : pystr)
  (c : captures) (k : nat -> pystr -> captures -> option captures)
  (m : captures) :
  run_of DigitChar n ->
  match rest with
  | [] => True
  | y :: _ => class_has DigitChar y = false
  end ->
  (forall p, k p rest (set_group g n c) = Some m) ->
  run (number_field g) pos (ustr ":" ++ n ++ rest) c k = Some m.
Proof.
  intros [Hn Hp] Hrest Hk.
  unfold number_field. cbn [run]. rewrite run_lit, startswith_app, skipn_app_exact.
  apply many1_exact; try assumption.
  rewrite firstn_consumed. apply Hk.
Qed.

Lemma firstn_startswith (pos : nat) (w s : pystr) :
  startswith w s = true -> firstn (pos + length w - pos) s = w.
Proof.
  intros H. rewrite (startswith_split _ _ H) at 1. apply firstn_consumed.
Qed.

Lemma severity_field_sound (pos : nat) (s : pystr) (c : captures)
  (k : nat -> pystr -> captures -> option captures) (m : captures) :
  run severity_field pos s c k = Some m ->
  exists sev rest pos',
    s = sev ++ rest /\
    ((sev = ustr "error" /\ k pos' rest (set_group GError sev c) = Some m) \/
     ((sev = ustr "warning" \/ sev = ustr "note") /\
      k pos' rest (set_group GWarning sev c) = Some m)).
Proof.
  unfold severity_field. cbn [run]. rewrite !run_lit.
  intros H. cbn beta in H.
  destruct (startswith (ustr "error") s) eqn:He.
  - pose proof (startswith_split _ _ He) as Hs.
    rewrite (firstn_startswith pos _ _ He) in H.
    destruct (k (pos + length (ustr "error")) (skipn (length (ustr "error")) s)
                (set_group GError (ustr "error") c)) as [m'|] eqn:Hk.
    + injection H as ->. eexists _, _, _. split; [exact Hs|]. left.
      split; [reflexivity | exact Hk].
    + exfalso.
      destruct s as [|x s]; [discriminate He|].
      cbn [startswith ustr list_ascii_of_string map] in He.
      apply andb_prop in He. destruct He as [Hx _]. apply N.eqb_eq in Hx.
      subst x. cbn in H. discriminate H.
  - destruct (startswith (ustr "warning") s) eqn:Hw.
    + pose proof (startswith_split _ _ Hw) as Hs.
      rewrite (firstn_startswith pos _ _ Hw) in H.
      destruct (k (pos + length (ustr "warning"))
                  (skipn (length (ustr "warning")) s)
                  (set_group GWarning (ustr "warning") c)) as [m'|] eqn:Hk.
      * injection H as ->. eexists _, _, _. split; [exact Hs|]. right.
        split; [left; reflexivity | exact Hk].
      * exfalso.
        destruct s as [|x s]; [discriminate Hw|].
        cbn [startswith ustr list_ascii_of_string map] in Hw.
        apply andb_prop in Hw. destruct Hw as [Hx _]. apply N.eqb_eq in Hx.
        subst x. cbn in H. discriminate H.
    + destruct (startswith (ustr "note") s) eqn:Hn; [|discriminate H].
      pose proof (startswith_split _ _ Hn) as Hs.
      rewrite (firstn_startswith pos _ _ Hn) in H.
      eexists _, _, _. split; [exact Hs|]. right.
      split; [right; reflexivity | exact H].
Qed.

Lemma severity_field_exact (pos : nat) (sev rest : pystr) (c : captures)
  (k : nat -> pystr -> captures -> option captures) (m : captures) :
  (sev = ustr "error" /\
   forall p, k p rest (set_group GError sev c) = Some m) \/
  ((sev = ustr "warning" \/ sev = ustr "note") /\
   forall p, k p rest (set_group GWarning sev c) = Some m) ->
  run severity_field pos (sev ++ rest) c k = Some m.
Proof.
  unfold severity_field. cbn [run]. rewrite !run_lit.
  intros [[-> Hk] | [[-> | ->] Hk]].
  - rewrite startswith_app, skipn_app_exact, firstn_consumed, Hk. reflexivity.
  - change (startswith (ustr "error") (ustr "warning" ++ rest)) with false.
    rewrite startswith_app, skipn_app_exact, firstn_consumed, Hk. reflexivity.
  - change (startswith (ustr "error") (ustr "note" ++ rest)) with false.
    change (startswith (ustr "warning") (ustr "note" ++ rest)) with false.
    rewrite startswith_app, skipn_app_exact, firstn_consumed, Hk. reflexivity.
Qed.

Lemma message_field_sound (pos : nat) (s : pystr) (c : captures)
  (k : nat -> pystr -> captures -> option captures) (m : captures) :
  run message_field pos s c k = Some m ->
  exists msg rest pos',
    s = ustr ": " ++ msg ++ rest /\ run_of AnyChar msg /\
    k pos' rest (set_group GMessage msg c) = Some m /\
    forall msg' rest',
      msg ++ rest = msg' ++ rest' ->
      forallb (class_has AnyChar) msg' = true ->
      length msg < length msg' ->
      exists p' c', k p' rest' c' = None.
Proof.
  unfold message_field. cbn [run]. rewrite run_lit.
  destruct (startswith (ustr ": ") s) eqn:Hc; [|discriminate].
  apply startswith_split in Hc.
  intros H. apply many1_sound in H.
  destruct H as (msg & rest & Hs & Hn & Hp & Hk & Hmax).
  exists msg, rest. eexists.
  split; [rewrite Hc, Hs at 1; reflexivity|].
  split; [split; assumption|].
  split; [rewrite Hs in Hk; rewrite firstn_consumed in Hk; exact Hk|].
  intros msg' rest' Heq Hp' Hlen.
  eexists _, _. apply (Hmax msg' rest'); [congruence | exact Hp' | exact Hlen].
Qed.

Lemma message_field_exact (pos : nat) (msg rest : pystr) (c : captures)
  (k : nat -> pystr -> captures -> option captures) (m : captures) :
  run_of AnyChar msg ->
  match rest with
  | [] => True
  | y :: _ => class_has AnyChar y = false
  end ->
  (forall p, k p rest (set_group GMessage msg c) = Some m) ->
  run message_field pos (ustr ": " ++ msg ++ rest) c k = Some m.
Proof.
  intros [Hn Hp] Hrest Hk.
  unfold message_field. cbn [run]. rewrite run_lit, startswith_app, skipn_app_exact.
  apply many1_exact; try assumption.
  rewrite firstn_consumed. apply Hk.
Qed.

Lemma fields_run (pos : nat) (s : pystr) (c : captures)
  (k : nat -> pystr -> captures -> option captures) :
  run diagnostic_fields pos s c k
  = run (number_field GLine) pos s c
      (fun p1 s1 c1 =>
         run (number_field GCol) p1 s1 c1
           (fun p2 s2 c2 =>
              run (lit (ustr ": ")) p2 s2 c2
                (fun p3 s3 c3 =>
                   run severity_field p3 s3 c3
                     (fun p4 s4 c4 => run message_field p4 s4 c4 k)))).
Proof. reflexivity. Qed.

(** Every match of the fields has the five parts, and the message runs
    as far as the rest of the pattern lets it. *)
Lemma fields_sound (pos : nat) (s : pystr) (c : captures)
  (k : nat -> pystr -> captures -> option captures) (m : captures) :
  run diagnostic_fields pos s c k = Some m ->
  exists line col sev msg rest pos',
    s = ustr ":" ++ line ++ ustr ":" ++ col ++ ustr ": " ++ sev ++ ustr ": "
        ++ msg ++ rest /\
    run_of DigitChar line /\ run_of DigitChar col /\ run_of AnyChar msg /\
    ((sev = ustr "error" /\
      k pos' rest (fields_captures line col sev msg true c) = Some m) \/
     ((sev = ustr "warning" \/ sev = ustr "note") /\
      k pos' rest (fields_captures line col sev msg false c) = Some m)) /\
    forall msg' rest',
      msg ++ rest = msg' ++ rest' ->
      forallb (class_has AnyChar) msg' = true ->
      length msg < length msg' ->
      exists p' c', k p' rest' c' = None.
Proof.
  rewrite fields_run. intros H.
  apply number_field_sound in H. destruct H as (line & s1 & p1 & -> & Hline & H).
  apply number_field_sound in H. destruct H as (col & s2 & p2 & -> & Hcol & H).
  rewrite run_lit in H.
  destruct (startswith (ustr ": ") s2) eqn:Hsp; [|discriminate H].
  apply startswith_split in Hsp. rewrite Hsp.
  apply severity_field_sound in H. destruct H as (sev & s4 & p4 & -> & H).
  destruct H as [[-> H] | [Hsev H]];
    apply message_field_sound in H;
    destruct H as (msg & rest & p5 & -> & Hmsg & Hk & Hmax);
    exists line, col; eexists; exists msg, rest, p5;
    (split; [reflexivity|]); repeat (split; [assumption|]);
    (split; [|exact Hmax]).
  - left. split; [reflexivity | exact Hk].
  - right. split; [exact Hsev | exact Hk].
Qed.

(** A text with the five parts is matched with exactly these parts when
    the message goes to the end of the line. *)
Lemma fields_exact (pos : nat) (line col sev msg rest : pystr)
  (is_error : bool) (c : captures)
  (k : nat -> pystr -> captures -> option captures) (m : captures) :
  run_of DigitChar line -> run_of DigitChar col -> run_of AnyChar msg ->
  (sev = ustr "error" /\ is_error = true \/
   (sev = ustr "warning" \/ sev = ustr "note") /\ is_error = false) ->
  match rest with
  | [] => True
  | y :: _ => class_has AnyChar y = false
  end ->
  (forall p, k p rest (fields_captures line col sev msg is_error c) = Some m) ->
  run diagnostic_fields pos
    (ustr ":" ++ line ++ ustr ":" ++ col ++ ustr ": " ++ sev ++ ustr ": "
     ++ msg ++ rest) c k
  = Some m.
Proof.
  intros Hline Hcol Hmsg Hsev Hrest Hk.
  rewrite fields_run.
  apply number_field_exact; [exact Hline | reflexivity|]. intros p1.
  apply number_field_exact; [exact Hcol | reflexivity|]. intros p2.
  rewrite run_lit, startswith_app, skipn_app_exact.
  apply severity_field_exact.
  destruct Hsev as [[-> ->] | [Hsev ->]].
  - left. split; [reflexivity|]. intros p4.
    apply message_field_exact; [exact Hmsg | exact Hrest | exact Hk].
  - right. split; [exact Hsev|]. intros p4.
    apply message_field_exact; [exact Hmsg | exact Hrest | exact Hk].
Qed.

Lemma regex_run (subject : pystr) :
  re_match regex subject
  = many1 (class_has AnyChar) 0 subject
      (fun pos s => run diagnostic_fields pos s no_captures
                      (fun _ _ c => Some c)).
Proof. reflexivity. Qed.

(** X19: every match of the pattern at the start of a string has the
    shape of a diagnostic: a non-empty file part without line feed, a
    colon, the digits of the line, a colon, the digits of the column, a
    colon and a space, one of the three severities, a colon and a space,
    and a non-empty message that goes to the end of the line.  The groups
    hold the line, the column and the message; the severity is in [error]
    when it is [error], and in [warning] when it is [warning] or [note],
    the other group of the two being unset. *)
Theorem diagnostic_match_shape (subject : pystr) (m : captures) :
  re_match regex subject = Some m ->
  exists file line col sev msg rest,
    subject = gcc_line file line col sev msg ++ rest /\
    run_of AnyChar file /\ run_of DigitChar line /\ run_of DigitChar col /\
    run_of AnyChar msg /\
    (rest = [] \/ exists r, rest = 10%N :: r) /\
    g_line m = Some line /\ g_col m = Some col /\ g_message m = Some msg /\
    ((sev = ustr "error" /\ g_error m = Some sev /\ g_warning m = None) \/
     ((sev = ustr "warning" \/ sev = ustr "note") /\
      g_warning m = Some sev /\ g_error m = None)).
Proof.
  rewrite regex_run. intros H.
  apply many1_sound in H.
  destruct H as (file & b & -> & Hfile & Hfp & H & _).
  apply fields_sound in H.
  destruct H as (line & col & sev & msg & rest & p' & -> & Hl & Hc & Hm & Hk & Hmax).
  exists file, line, col, sev, msg, rest.
  split; [unfold gcc_line; repeat rewrite <- app_assoc; reflexivity|].
  split; [split; assumption|].
  do 3 (split; [assumption|]).
  split.
  { destruct rest as [|y r]; [left; reflexivity|].
    destruct (N.eqb y 10) eqn:Hy;
      [apply N.eqb_eq in Hy; subst y; right; eexists; reflexivity|].
    exfalso.
    destruct (Hmax (msg ++ [y]) r) as (p1 & c1 & Hnone).
    - rewrite <- app_assoc. reflexivity.
    - rewrite forallb_app. destruct Hm as [_ Hm]. rewrite Hm.
      cbn [forallb class_has]. rewrite Hy. reflexivity.
    - rewrite length_app. cbn [length]. lia.
    - discriminate Hnone. }
  destruct Hk as [[-> Hk] | [Hsev Hk]]; injection Hk as <-;
    (split; [reflexivity|]); (split; [reflexivity|]);
    (split; [reflexivity|]).
  - left. repeat split.
  - right. repeat split. exact Hsev.
Qed.

Lemma diagnostic_match_shape_witness :
  let m := {| g_line := Some (ustr "3"); g_col := Some (ustr "4");
              g_error := Some (ustr "error"); g_warning := None;
              g_message := Some (ustr "c") |} in
  exists file line col sev msg rest,
    ustr "a:1:2: error: b:3:4: error: c" ++ 10%N :: ustr "next"
    = gcc_line file line col sev msg ++ rest /\
    run_of AnyChar file /\ run_of DigitChar line /\ run_of DigitChar col /\
    run_of AnyChar msg /\
    (rest = [] \/ exists r, rest = 10%N :: r) /\
    g_line m = Some line /\ g_col m = Some col /\ g_message m = Some msg /\
    ((sev = ustr "error" /\ g_error m = Some sev /\ g_warning m = None) \/
     ((sev = ustr "warning" \/ sev = ustr "note") /\
      g_warning m = Some sev /\ g_error m = None)).
Proof.
  exact (@diagnostic_match_shape
           (ustr "a:1:2: error: b:3:4: error: c" ++ 10%N :: ustr "next")
           _ eq_refl).
Defined.

Lemma digits_have_no_colon (n : pystr) :
  forallb (class_has DigitChar) n = true -> count_occ N.eq_dec n 58%N = 0.
Proof.
  intros H. apply count_occ_not_In. intros Hin.
  rewrite forallb_forall in H. specialize (H _ Hin). discriminate H.
Qed.

Lemma colons_of_fields (line col sev msg rest : pystr) :
  4 <= count_occ N.eq_dec
         (ustr ":" ++ line ++ ustr ":" ++ col ++ ustr ": " ++ sev ++ ustr ": "
          ++ msg ++ rest) 58%N.
Proof.
  rewrite !count_occ_app.
  change (count_occ N.eq_dec (ustr ":") 58%N) with 1.
  change (count_occ N.eq_dec (ustr ": ") 58%N) with 1.
  lia.
Qed.

Lemma colons_of_plain_fields (line col sev msg : pystr) :
  forallb (class_has DigitChar) line = true ->
  forallb (class_has DigitChar) col = true ->
  is_severity sev -> ~ In 58%N msg ->
  count_occ N.eq_dec
    (ustr ":" ++ line ++ ustr ":" ++ col ++ ustr ": " ++ sev ++ ustr ": " ++ msg)
    58%N = 4.
Proof.
  intros Hl Hc Hs Hm.
  rewrite !count_occ_app.
  rewrite (digits_have_no_colon _ Hl), (digits_have_no_colon _ Hc).
  rewrite (proj1 (count_occ_not_In N.eq_dec msg 58%N) Hm).
  destruct Hs as [-> | [-> | ->]]; reflexivity.
Qed.

(** X20: a diagnostic line as ShellCheck prints it, whose message has no
    colon, is matched, and the groups are its parts: the line and the
    column as printed, the severity in [error] or in [warning], and the
    whole message.  The file part may hold anything but a line feed,
    colons and earlier diagnostics included: the pattern takes the last
    place of the line where the fields fit. *)
Theorem gcc_line_is_parsed (file line col sev msg : pystr) :
  run_of AnyChar file -> run_of DigitChar line -> run_of DigitChar col ->
  is_severity sev -> run_of AnyChar msg -> ~ In 58%N msg ->
  re_match regex (gcc_line file line col sev msg)
  = Some {| g_line := Some line; g_col := Some col;
            g_error := if str_eqb sev (ustr "error") then Some sev else None;
            g_warning := if str_eqb sev (ustr "error") then None else Some sev;
            g_message := Some msg |}.
Proof.
  intros [Hfn Hfp] Hline Hcol Hsev Hmsg Hnc.
  set (expected := {| g_line := Some line; g_col := Some col;
            g_error := if str_eqb sev (ustr "error") then Some sev else None;
            g_warning := if str_eqb sev (ustr "error") then None else Some sev;
            g_message := Some msg |}).
  set (b := ustr ":" ++ line ++ ustr ":" ++ col ++ ustr ": " ++ sev ++ ustr ": "
            ++ msg).
  set (K := fun (pos : nat) (s : pystr) =>
              run diagnostic_fields pos s no_captures (fun _ _ c => Some c)).
  assert (Hb : forall p, K p b = Some expected).
  { intros p. unfold K, b.
    rewrite <- (app_nil_r msg).
    apply fields_exact with (is_error := str_eqb sev (ustr "error"));
      try assumption; try exact I.
    - destruct Hsev as [-> | [-> | ->]];
        [left | right | right]; split; auto.
    - intros _. unfold expected.
      destruct Hsev as [-> | [-> | ->]]; reflexivity. }
  rewrite regex_run. change (gcc_line file line col sev msg) with (file ++ b).
  fold K.
  destruct (many1 (class_has AnyChar) 0 (file ++ b) K) as [m|] eqn:Hrun.
  2:{ pose proof (@many1_none _ _ _ 0 K Hrun file b eq_refl Hfn Hfp) as Hnone.
      rewrite Hb in Hnone. discriminate Hnone. }
  apply many1_sound in Hrun.
  destruct Hrun as (a & b' & Hsplit & Ha & Hap & Hk & Hmax).
  destruct (Nat.lt_trichotomy (length a) (length file)) as [Hlt | [Heq | Hgt]].
  - pose proof (Hmax file b eq_refl Hfp Hlt) as Hnone.
    rewrite Hb in Hnone. discriminate Hnone.
  - assert (Haf : a = file).
    { apply (f_equal (firstn (length a))) in Hsplit.
      rewrite Heq in Hsplit at 1.
      rewrite !firstn_app, !firstn_all, !Nat.sub_diag in Hsplit.
      cbn [firstn] in Hsplit. rewrite !app_nil_r in Hsplit.
      symmetry. exact Hsplit. }
    subst a. apply app_inv_head in Hsplit. subst b'.
    rewrite Hb in Hk. symmetry. exact Hk.
  - exfalso.
    apply app_eq_app in Hsplit.
    destruct Hsplit as (x & [[Hfile _] | [Ha' Hbx]]).
    + apply (f_equal (@length N)) in Hfile. rewrite length_app in Hfile. lia.
    + assert (Hx : x <> []).
      { intros ->. rewrite app_nil_r in Ha'. subst a. lia. }
      unfold K in Hk. apply fields_sound in Hk.
      destruct Hk as (l' & c' & s' & m' & r' & p' & Hshape & _).
      pose proof (colons_of_fields l' c' s' m' r') as H4.
      rewrite <- Hshape in H4.
      pose proof (@colons_of_plain_fields line col sev msg
                    (proj2 Hline) (proj2 Hcol) Hsev Hnc) as Hb4.
      fold b in Hb4. rewrite Hbx, count_occ_app in Hb4.
      destruct x as [|y x]; [congruence|].
      unfold b in Hbx. cbn [app ustr list_ascii_of_string map] in Hbx.
      injection Hbx as Hy _. rewrite <- Hy in Hb4.
      cbn [count_occ] in Hb4.
      destruct (N.eq_dec 58 58) as [_|Hne]; [lia | apply Hne; reflexivity].
Qed.

Lemma gcc_line_is_parsed_witness :
  re_match regex
    (gcc_line (ustr "/tmp/run: 1.sh") (ustr "12") (ustr "5") (ustr "note")
       (ustr "Double quote to prevent globbing. [SC2086]"))
  = Some {| g_line := Some (ustr "12"); g_col := Some (ustr "5");
            g_error := None; g_warning := Some (ustr "note");
            g_message :=
              Some (ustr "Double quote to prevent globbing. [SC2086]") |}.
Proof.
  refine (@gcc_line_is_parsed (ustr "/tmp/run: 1.sh") (ustr "12") (ustr "5")
            (ustr "note") (ustr "Double quote to prevent globbing. [SC2086]")
            _ _ _ _ _ _).
  - split; [discriminate | reflexivity].
  - split; [discriminate | reflexivity].
  - split; [discriminate | reflexivity].
  - right. right. reflexivity.
  - split; [discriminate | reflexivity].
  - vm_compute. intros H. repeat (destruct H as [H|H]; [discriminate H|]).
    exact H.
Defined.
